(** * TeamSync Lite: the scoring pipeline of [team_analysis.py]

    A shallow embedding of [analyze_team_communication] (lines 21-85 of
    [src/team_analysis.py]) and the properties of its Score Report.

    Numbers.  The script computes with binary64 values.  The statistics of
    a dataset (means, deviation, decimal rounding) are modelled exactly: a
    float is either [NaN] or an exact rational, and the one irrational
    quantity, a standard deviation, is kept as [a + b * sqrt v] (type
    [sfloat]).  The properties stated on this model are those that binary
    rounding error cannot change: thresholds on rounded values, NaN,
    ranges, which rows are read.  The scalar arithmetic of the scores
    (lines 41-47) is also modelled in binary64 itself (module [B64]), and
    what is said about the value of a score or of the total is said there.

    Data.  A cleaned DataFrame is a list of rows with the four CSV columns;
    [date] is the parsed timestamp (nanoseconds since the epoch, naive).
    Loading and cleaning (lines 15-19) belong to the ingestion step; they
    are modelled apart, on the rows that [read_csv] hands over. *)

From Stdlib Require Import ZArith QArith Qround Qabs Qpower List String Ascii Bool.
From Stdlib Require Import Lia Lqa Permutation DecimalString.
From Stdlib Require Qcanon.
Import ListNotations.

Local Open Scope string_scope.
Local Open Scope list_scope.
Local Open Scope Q_scope.

(** ** Floats *)

Inductive float : Type :=
| NaN
| Fin (q : Q).

(** [a + b * sqrt v], the shape of every value derived from a standard
    deviation by rational scaling and shifting. *)
Inductive sfloat : Type :=
| SNaN
| Surd (a b v : Q).

Definition fin (q : Q) : float := Fin (Qred q).

Definition fadd (x y : float) : float :=
  match x, y with
  | Fin a, Fin b => fin (a + b)
  | _, _ => NaN
  end.

Definition fmul (x y : float) : float :=
  match x, y with
  | Fin a, Fin b => fin (a * b)
  | _, _ => NaN
  end.

(** Python's [<] and [>]: every comparison with NaN is False. *)
Definition fltb (x y : float) : bool :=
  match x, y with
  | Fin a, Fin b => negb (Qle_bool b a)
  | _, _ => false
  end.

Definition fgtb (x y : float) : bool := fltb y x.

(** The builtins [max(a, b)] and [min(a, b)] on two arguments: the first
    argument is kept unless the second compares strictly better. *)
Definition py_max (a b : float) : float := if fgtb b a then b else a.
Definition py_min (a b : float) : float := if fltb b a then b else a.

(** Round half to even to the nearest integer. *)
Definition rint (q : Q) : Z :=
  let f := Qfloor q in
  match Qcompare (q - inject_Z f) (1 # 2) with
  | Lt => f
  | Gt => (f + 1)%Z
  | Eq => if Z.even f then f else (f + 1)%Z
  end.

Definition pow10 (ndigits : nat) : Q := inject_Z (10 ^ Z.of_nat ndigits).

(** [round(x, ndigits)] *)
Definition round (x : float) (ndigits : nat) : float :=
  match x with
  | NaN => NaN
  | Fin q => fin (inject_Z (rint (q * pow10 ndigits)) / pow10 ndigits)
  end.

(** *** Square roots *)

Definition sqrt (x : float) : sfloat :=
  match x with
  | NaN => SNaN
  | Fin v => if Qle_bool 0 v then Surd 0 1 (Qred v) else SNaN
  end.

(** [x - s] and [s * y] for a rational [x], [y]. *)
Definition ssub (x : float) (s : sfloat) : sfloat :=
  match x, s with
  | Fin q, Surd a b v => Surd (Qred (q - a)) (Qred (- b)) v
  | _, _ => SNaN
  end.

Definition smul (s : sfloat) (y : float) : sfloat :=
  match s, y with
  | Surd a b v, Fin q => Surd (Qred (a * q)) (Qred (b * q)) v
  | _, _ => SNaN
  end.

(** Exact comparison of [a + b * sqrt v] with a rational [c]. *)
Definition root_compare (w t : Q) : comparison :=
  (* sqrt w against t, for 0 <= w *)
  if Qle_bool 0 t then Qcompare w (t * t) else Gt.

Definition surd_compare (a b v c : Q) : comparison :=
  let w := b * b * v in
  if Qle_bool 0 b
  then root_compare w (c - a)
  else CompOpp (root_compare w (a - c)).

Definition sgtb (s : sfloat) (y : float) : bool :=
  match s, y with
  | Surd a b v, Fin c =>
      match surd_compare a b v c with Gt => true | _ => false end
  | _, _ => false
  end.

Definition surd_floor (a b v : Q) : Z :=
  let f := Qfloor a in
  let s := Z.sqrt (Qfloor (b * b * v)) in
  if Qle_bool 0 b
  then match surd_compare a b v (inject_Z (f + s + 1)) with
       | Lt => (f + s)%Z
       | _ => (f + s + 1)%Z
       end
  else match surd_compare a b v (inject_Z (f - s)) with
       | Lt => (f - s - 1)%Z
       | _ => (f - s)%Z
       end.

Definition surd_rint (a b v : Q) : Z :=
  let n := surd_floor a b v in
  match surd_compare a b v (inject_Z n + (1 # 2)) with
  | Lt => n
  | Gt => (n + 1)%Z
  | Eq => if Z.even n then n else (n + 1)%Z
  end.

(** [round(s, ndigits)] of a value that carries a square root. *)
Definition sround (s : sfloat) (ndigits : nat) : float :=
  match s with
  | SNaN => NaN
  | Surd a b v =>
      let p := pow10 ndigits in
      fin (inject_Z (surd_rint (a * p) (b * p) v) / p)
  end.

(** *** Formatting

    [str] of a float inside an f-string, for the short decimals that the
    labels print: sign, integer part, a point, and the fractional digits
    (at least one).  *)

Definition digits_of (n : Z) : string := NilZero.string_of_uint (N.to_uint (Z.to_N n)).

Fixpoint fraction_digits (fuel : nat) (r : Q) : string :=
  match fuel with
  | O => EmptyString
  | S fuel' =>
      let d := Qfloor (r * 10) in
      let r' := Qred (r * 10 - inject_Z d) in
      append (digits_of d)
             (if Qeq_bool r' 0 then EmptyString else fraction_digits fuel' r')
  end.

Definition str (x : float) : string :=
  match x with
  | NaN => "nan"
  | Fin q =>
      let m := Qabs q in
      let i := Qfloor m in
      append (if Qle_bool 0 q then "" else "-")
             (append (digits_of i)
                     (append "." (fraction_digits 17 (Qred (m - inject_Z i)))))
  end.

(** ** Exceptions *)

Definition exn := string.

Inductive result (A : Type) : Type :=
| Ok (a : A)
| Raise (e : exn).

Arguments Ok {A} a.
Arguments Raise {A} e.

Definition bind {A B} (m : result A) (k : A -> result B) : result B :=
  match m with
  | Ok a => k a
  | Raise e => Raise e
  end.

Notation "x <- m ;; k" := (bind m (fun x => k))
  (at level 61, m at next level, right associativity).

(** [try: body except: handler] with a bare [except]. *)
Definition try_except {A} (body : result A) (handler : exn -> result A) : result A :=
  match body with
  | Ok a => Ok a
  | Raise e => handler e
  end.

(** [Series.apply(f)]: [f] is called on every element in order; an exception
    that escapes [f] escapes [Series_apply]. *)
Fixpoint Series_apply {A B} (f : A -> result B) (s : list A) : result (list B) :=
  match s with
  | [] => Ok []
  | x :: s' =>
      y <- f x ;;
      ys <- Series_apply f s' ;;
      Ok (y :: ys)
  end.

(** ** Series statistics *)

(** Sums are kept in lowest terms as they accumulate. *)
Definition Qsum (l : list Q) : Q := fold_right (fun x acc => Qred (x + acc)) 0 l.
Definition Zsum (l : list Z) : Z := fold_right Z.add 0%Z l.

Definition Qlen {A} (l : list A) : Q := inject_Z (Z.of_nat (List.length l)).

(** [Series.mean()]: NaN for the empty series. *)
Definition mean (l : list Q) : float :=
  match l with
  | [] => NaN
  | _ => fin (Qsum l / Qlen l)
  end.

(** [Series.var()] with the default [ddof=1]: NaN when [count - ddof <= 0],
    otherwise the squared deviations from the mean over [count - 1]. *)
Definition var (l : list Q) : float :=
  if (List.length l <=? 1)%nat then NaN
  else
    let avg := Qsum l / Qlen l in
    let sqr := map (fun x => (avg - x) * (avg - x)) l in
    fin (Qsum sqr / (Qlen l - 1)).

(** [Series.std()] is the square root of [Series.var()]. *)
Definition std (l : list Q) : sfloat := sqrt (var l).

(** ** The cleaned DataFrame *)

Record row : Type := {
  date : Z;
  channel : string;
  member : string;
  message : string
}.

Definition DataFrame := list row.

(** *** [resample('D').size()] *)

Definition ns_per_day : Z := 86400000000000.

(** The calendar day of a timestamp. *)
Definition day_of (t : Z) : Z := (t / ns_per_day)%Z.

Definition Zmin_list (x : Z) (l : list Z) : Z := fold_right Z.min x l.
Definition Zmax_list (x : Z) (l : list Z) : Z := fold_right Z.max x l.

(** [n] consecutive days from [first]. *)
Definition day_range (first : Z) (n : nat) : list Z :=
  map (fun i => (first + Z.of_nat i)%Z) (seq 0 n).

Definition count_day (days : list Z) (d : Z) : Z :=
  Z.of_nat (count_occ Z.eq_dec days d).

(** One bin per calendar day from the day of the earliest timestamp to the
    day of the latest one, each holding the number of rows of that day;
    an empty index gives an empty series. *)
Definition resample_D_size (index : list Z) : list Z :=
  match index with
  | [] => []
  | t :: ts =>
      let first := day_of (Zmin_list t ts) in
      let last := day_of (Zmax_list t ts) in
      map (count_day (map day_of index))
          (day_range first (Z.to_nat (last - first + 1)))
  end.

(** *** [value_counts(normalize=True)] *)

Fixpoint insert_desc (x : string * Z) (l : list (string * Z)) : list (string * Z) :=
  match l with
  | [] => [x]
  | y :: l' => if (snd y <=? snd x)%Z then x :: l else y :: insert_desc x l'
  end.

Definition sort_desc (l : list (string * Z)) : list (string * Z) :=
  fold_right insert_desc [] l.

(** The distinct values of a column, in order of first appearance. *)
Fixpoint unique (s : list string) : list string :=
  match s with
  | [] => []
  | x :: s' => x :: filter (fun y => negb (String.eqb x y)) (unique s')
  end.

(** Distinct values with their number of occurrences, most frequent first. *)
Definition value_counts (s : list string) : list (string * Z) :=
  sort_desc (map (fun m => (m, Z.of_nat (count_occ string_dec s m)))
                 (unique s)).

(** With [normalize=True] every count is divided by the sum of the counts. *)
Definition value_counts_normalize (s : list string) : list (string * Q) :=
  let counts := value_counts s in
  let total := Zsum (map snd counts) in
  map (fun mc => (fst mc, Qred (inject_Z (snd mc) / inject_Z total))) counts.

(** ** The Score Report *)

Record metric : Type := {
  value : float;
  score : float;
  label : string
}.

Record metrics_t : Type := {
  communication : metric;
  sentiment : metric;
  balance : metric
}.

Record report : Type := {
  total_score : float;
  metrics : metrics_t;
  recommendations : list string;
  report_date : string
}.

(** ** [analyze_team_communication] *)

Definition low_frequency_warning : string :=
  "⚠️ Низкая частота коммуникаций. Рекомендуется ввести ежедневные 15-минутные стендапы.".
Definition tone_warning : string :=
  "⚠️ Нейтральный/негативный тон обсуждений. Попробуйте начинать встречи с позитивных моментов.".
Definition uneven_participation_warning : string :=
  "⚠️ Неравномерное участие. Внедрите систему ротации ведущего встреч.".
Definition positive_fallback : string :=
  "✅ Отличный баланс коммуникаций! Продолжайте в том же духе.".

(** Lines 50-59: the recommendation list from the three raw statistics. *)
Definition generate_recommendations
    (avg_daily_messages avg_sentiment : float) (participation_std : sfloat)
    : list string :=
  let recommendations := [] in
  let recommendations :=
    if fltb avg_daily_messages (Fin 5)
    then recommendations ++ [low_frequency_warning] else recommendations in
  let recommendations :=
    if fltb avg_sentiment (Fin 0.1)
    then recommendations ++ [tone_warning] else recommendations in
  let recommendations :=
    if sgtb participation_std (Fin 0.3)
    then recommendations ++ [uneven_participation_warning] else recommendations in
  let recommendations :=
    match recommendations with
    | [] => recommendations ++ [positive_fallback]
    | _ => recommendations
    end in
  recommendations.

(** Line 73. *)
Definition sentiment_label (avg_sentiment : float) : string :=
  if fgtb avg_sentiment (Fin 0.2) then "Позитивный"
  else if fgtb avg_sentiment (Fin (-0.1)) then "Нейтральный"
  else "Негативный".

(** Lines 22-23. *)
Definition daily_activity (df : DataFrame) : list Z :=
  resample_D_size (map date df).

Definition avg_daily_messages (df : DataFrame) : float :=
  round (mean (map inject_Z (daily_activity df))) 1.

(** Line 36, and the [participation.std()] of lines 37 and 55. *)
Definition participation (df : DataFrame) : list (string * Q) :=
  value_counts_normalize (map member df).

Definition participation_std (df : DataFrame) : sfloat :=
  std (map snd (participation df)).

Section Analysis.

(** The sentiment capability, [TextBlob(str(text)).sentiment.polarity]:
    a polarity, or an exception. *)
Variable TextBlob_polarity : string -> result Q.

(** [datetime.now().strftime("%Y-%m-%d")] *)
Variable today : string.

(** Lines 26-30. *)
Definition get_sentiment (text : string) : result Q :=
  try_except (TextBlob_polarity text) (fun _ => Ok 0).

Definition analyze_team_communication (df : DataFrame) : result report :=
  let avg_daily_messages := avg_daily_messages df in
  df_sentiment <- Series_apply get_sentiment (map message df) ;;
  let avg_sentiment := round (mean df_sentiment) 2 in
  let participation_balance := ssub (Fin 1) (participation_std df) in
  let participation_balance := sround (smul participation_balance (Fin 100)) 1 in
  let communication_score :=
    py_min (Fin 100) (py_max (Fin 0) (fmul avg_daily_messages (Fin 2))) in
  let sentiment_score :=
    py_min (Fin 100) (py_max (Fin 0) (fmul (fadd avg_sentiment (Fin 1)) (Fin 50))) in
  let balance_score :=
    py_min (Fin 100) (py_max (Fin 0) participation_balance) in
  let total_score :=
    round (fadd (fadd (fmul communication_score (Fin 0.4))
                      (fmul sentiment_score (Fin 0.3)))
                (fmul balance_score (Fin 0.3))) 1 in
  let recommendations :=
    generate_recommendations avg_daily_messages avg_sentiment
                             (participation_std df) in
  Ok {| total_score := total_score;
        metrics := {|
          communication := {|
            value := avg_daily_messages;
            score := communication_score;
            label := append (str avg_daily_messages) " сообщений/день" |};
          sentiment := {|
            value := avg_sentiment;
            score := sentiment_score;
            label := sentiment_label avg_sentiment |};
          balance := {|
            value := participation_balance;
            score := balance_score;
            label := append (str participation_balance) "% баланса" |} |};
        recommendations := recommendations;
        report_date := today |}.

End Analysis.

(** ** Loading and cleaning (lines 15-19)

    The frame that [pd.read_csv] returns: every field as read, a missing
    ([NaN]) date or message where the CSV field is empty. *)

Record raw_row : Type := {
  raw_date : option string;
  raw_channel : string;
  raw_member : string;
  raw_message : option string
}.

(** [df.dropna(subset=['message'])] *)
Definition dropna_message (rows : list raw_row) : list raw_row :=
  filter (fun r => match raw_message r with Some _ => true | None => false end)
         rows.

(** A row of the frame after line 19: the date is a timestamp or [NaT]
    ([None]). *)
Record parsed_row : Type := {
  parsed_date : option Z;
  parsed_channel : string;
  parsed_member : string;
  parsed_message : string
}.

Definition parsed_row_of (rd : raw_row * option Z) : parsed_row :=
  {| parsed_date := snd rd;
     parsed_channel := raw_channel (fst rd);
     parsed_member := raw_member (fst rd);
     parsed_message := match raw_message (fst rd) with Some t => t | None => "" end |}.

(** The timestamps of the rows that have one. *)
Fixpoint dated (df : list parsed_row) : list Z :=
  match df with
  | [] => []
  | r :: df' =>
      match parsed_date r with
      | Some t => t :: dated df'
      | None => dated df'
      end
  end.

Section Load.

(** [pd.to_datetime] on a whole column: a missing value becomes [NaT], a
    value that cannot be parsed raises. *)
Variable to_datetime : list (option string) -> result (list (option Z)).

Variable TextBlob_polarity : string -> result Q.
Variable today : string.

(** Lines 18-19. *)
Definition clean (rows : list raw_row) : result (list parsed_row) :=
  let df := dropna_message rows in
  dates <- to_datetime (map raw_date df) ;;
  Ok (map parsed_row_of (combine df dates)).

(** Lines 21-85 on the frame of line 19.  [resample] bins the rows by date,
    so a row whose date is [NaT] is in no bin of the daily series; it counts
    for the sentiment and for the participation like any other row. *)
Definition analyze_parsed (df : list parsed_row) : result report :=
  let avg_daily_messages :=
    round (mean (map inject_Z (resample_D_size (dated df)))) 1 in
  df_sentiment <-
    Series_apply (get_sentiment TextBlob_polarity) (map parsed_message df) ;;
  let avg_sentiment := round (mean df_sentiment) 2 in
  let participation := value_counts_normalize (map parsed_member df) in
  let participation_balance := ssub (Fin 1) (std (map snd participation)) in
  let participation_balance := sround (smul participation_balance (Fin 100)) 1 in
  let communication_score :=
    py_min (Fin 100) (py_max (Fin 0) (fmul avg_daily_messages (Fin 2))) in
  let sentiment_score :=
    py_min (Fin 100) (py_max (Fin 0) (fmul (fadd avg_sentiment (Fin 1)) (Fin 50))) in
  let balance_score :=
    py_min (Fin 100) (py_max (Fin 0) participation_balance) in
  let total_score :=
    round (fadd (fadd (fmul communication_score (Fin 0.4))
                      (fmul sentiment_score (Fin 0.3)))
                (fmul balance_score (Fin 0.3))) 1 in
  let recommendations :=
    generate_recommendations avg_daily_messages avg_sentiment
                             (std (map snd participation)) in
  Ok {| total_score := total_score;
        metrics := {|
          communication := {|
            value := avg_daily_messages;
            score := communication_score;
            label := append (str avg_daily_messages) " сообщений/день" |};
          sentiment := {|
            value := avg_sentiment;
            score := sentiment_score;
            label := sentiment_label avg_sentiment |};
          balance := {|
            value := participation_balance;
            score := balance_score;
            label := append (str participation_balance) "% баланса" |} |};
        recommendations := recommendations;
        report_date := today |}.

(** Lines 15-85 after [read_csv]: clean, then analyse. *)
Definition clean_and_analyze (rows : list raw_row) : result report :=
  df <- clean rows ;;
  analyze_parsed df.

End Load.

(** A row of a cleaned DataFrame as a row of the frame of line 19. *)
Definition parsed_of_row (r : row) : parsed_row :=
  {| parsed_date := Some (date r);
     parsed_channel := channel r;
     parsed_member := member r;
     parsed_message := message r |}.

(** ** [generate_html_report]: the colour of the headline score (line 98) *)

Definition score_color (total_score : float) : string :=
  if fgtb total_score (Fin 70) then "#2e7d32"
  else if fgtb total_score (Fin 50) then "#ed6c02"
  else "#c62828".

(** ** binary64: the arithmetic of lines 41-47

    The scores are plain products, sums and one decimal rounding of binary64
    values.  Here a finite binary64 value is the rational it denotes, and
    every operation is the exact operation followed by rounding to the
    nearest binary64 value, ties to even ([RN]); overflow gives an infinity.
    The sign of zero is not kept. *)

Module B64.

Inductive double : Type :=
| NaN
| Inf (negative : bool)
| Fin (q : Q).

(** [floor (log2 q)] for [0 < q]. *)
Definition binade (q : Q) : Z :=
  let e := (Z.log2 (Qnum q) - Z.log2 (Z.pos (Qden q)))%Z in
  if Qle_bool (2 ^ e) q then e else (e - 1)%Z.

(** The exponent of the spacing of the binary64 values around [q]: 52 bits
    below the binade, and never below that of the subnormal values. *)
Definition grid (q : Q) : Z := (Z.max (binade q) (-1022) - 52)%Z.

Definition round_pos (q : Q) : Q :=
  let g := grid q in
  Qred (inject_Z (rint (q / 2 ^ g)) * 2 ^ g).

Definition round_nearest (q : Q) : Q :=
  match Qcompare q 0 with
  | Eq => 0
  | Gt => round_pos q
  | Lt => - round_pos (- q)
  end.

Definition RN (q : Q) : double :=
  let r := round_nearest q in
  if Qle_bool (2 ^ 1024) (Qabs r) then Inf (negb (Qle_bool 0 r)) else Fin r.

(** A numeric literal of the source. *)
Definition lit (q : Q) : double := RN q.

Definition add (x y : double) : double :=
  match x, y with
  | NaN, _ | _, NaN => NaN
  | Inf a, Inf b => if Bool.eqb a b then Inf a else NaN
  | Inf a, Fin _ | Fin _, Inf a => Inf a
  | Fin a, Fin b => RN (a + b)
  end.

Definition mul (x y : double) : double :=
  match x, y with
  | NaN, _ | _, NaN => NaN
  | Inf a, Inf b => Inf (xorb a b)
  | Inf a, Fin q | Fin q, Inf a =>
      if Qeq_bool q 0 then NaN else Inf (xorb a (negb (Qle_bool 0 q)))
  | Fin a, Fin b => RN (a * b)
  end.

Definition div (x y : double) : double :=
  match x, y with
  | NaN, _ | _, NaN => NaN
  | Inf _, Inf _ => NaN
  | Inf a, Fin q => Inf (xorb a (negb (Qle_bool 0 q)))
  | Fin _, Inf _ => Fin 0
  | Fin a, Fin b =>
      if Qeq_bool b 0
      then if Qeq_bool a 0 then NaN else Inf (negb (Qle_bool 0 a))
      else RN (a / b)
  end.

(** [x < y]; False when either side is NaN. *)
Definition ltb (x y : double) : bool :=
  match x, y with
  | NaN, _ | _, NaN => false
  | Inf a, Inf b => a && negb b
  | Inf a, Fin _ => a
  | Fin _, Inf b => negb b
  | Fin a, Fin b => negb (Qle_bool b a)
  end.

(** [rint]: the nearest integer, ties to even. *)
Definition rint_d (x : double) : double :=
  match x with
  | Fin q => Fin (inject_Z (rint q))
  | _ => x
  end.

(** [round(x, ndigits)] of a [numpy.float64]: multiply by [10**ndigits],
    [rint], divide by [10**ndigits]. *)
Definition round (x : double) (ndigits : nat) : double :=
  let f := Fin (pow10 ndigits) in
  div (rint_d (mul x f)) f.

(** [max(a, b)] and [min(a, b)] of the builtins, as in [py_max], [py_min]. *)
Definition py_max (a b : double) : double := if ltb a b then b else a.
Definition py_min (a b : double) : double := if ltb b a then b else a.

(** Lines 41-47, from the three statistics of lines 23, 33 and 38.  The
    integers [100], [0], [1], [2] and [50] of the source are the same
    numbers as binary64 values.  The sum of line 45 is a [numpy.float64]
    as soon as one score is; when the three scores are the integers [0] or
    [100] themselves it is a Python float that holds an integer, which
    either [round] returns unchanged. *)
Record scores : Type := {
  communication_score : double;
  sentiment_score : double;
  balance_score : double;
  total_score : double
}.

Definition scoring (avg_daily_messages avg_sentiment participation_balance : double)
    : scores :=
  let communication_score :=
    py_min (lit 100) (py_max (lit 0) (mul avg_daily_messages (lit 2))) in
  let sentiment_score :=
    py_min (lit 100) (py_max (lit 0) (mul (add avg_sentiment (lit 1)) (lit 50))) in
  let balance_score :=
    py_min (lit 100) (py_max (lit 0) participation_balance) in
  let total_score :=
    round (add (add (mul communication_score (lit 0.4))
                    (mul sentiment_score (lit 0.3)))
               (mul balance_score (lit 0.3))) 1 in
  {| communication_score := communication_score;
     sentiment_score := sentiment_score;
     balance_score := balance_score;
     total_score := total_score |}.

End B64.

(** ** Vocabulary of the specification *)

(** The polarity a row contributes: the capability's value, or [0] when the
    capability raises. *)
Definition polarity_or_zero (polarity : string -> result Q) (text : string) : Q :=
  match polarity text with
  | Ok p => p
  | Raise _ => 0
  end.

(** The members that sent at least one message. *)
Definition distinct_senders (df : DataFrame) : list string :=
  nodup string_dec (map member df).

(** A member's share of the messages. *)
Definition share (df : DataFrame) (m : string) : Q :=
  inject_Z (Z.of_nat (count_occ string_dec (map member df) m))
  / inject_Z (Z.of_nat (List.length df)).

(** The sample variance (divisor [n - 1]) of the values [f x] for [x] in
    [l]. *)
Definition sample_variance {A} (f : A -> Q) (l : list A) : Q :=
  let n := inject_Z (Z.of_nat (List.length l)) in
  let xbar := Qsum (map f l) / n in
  Qsum (map (fun x => (f x - xbar) * (f x - xbar)) l) / (n - 1).

(** Number of rows sent on calendar day [d]. *)
Definition messages_on (df : DataFrame) (d : Z) : Z :=
  Z.of_nat (List.length (filter (fun r => Z.eqb (day_of (date r)) d) df)).

(** Two rows that agree on everything but the channel. *)
Definition same_but_channel (r1 r2 : row) : Prop :=
  date r1 = date r2 /\ member r1 = member r2 /\ message r1 = message r2.

(** ** Sample data *)

(** A capability that scores a few words and fails on one text. *)
Definition sample_polarity (text : string) : result Q :=
  if String.eqb text "few" then Ok (-0.2)
  else if String.eqb text "great" then Ok 0.8
  else if String.eqb text "???" then Raise "TypeError"
  else Ok 0.

Definition day (n : Z) : Z := (n * ns_per_day)%Z.

(** Two members, one message each, mean polarity [-0.1]. *)
Definition two_members : DataFrame :=
  [ {| date := day 0; channel := "general"; member := "ann"; message := "few" |};
    {| date := day 0; channel := "general"; member := "bob"; message := "hello" |} ].

(** One member sends every message. *)
Definition single_sender : DataFrame :=
  [ {| date := day 0; channel := "general"; member := "ann"; message := "great" |};
    {| date := day 1; channel := "dev"; member := "ann"; message := "hello" |};
    {| date := day 1; channel := "dev"; member := "ann"; message := "few" |} ].

(** A gap of two days, an uneven split and a text the capability rejects. *)
Definition gap_week : DataFrame :=
  [ {| date := day 10; channel := "general"; member := "ann"; message := "great" |};
    {| date := (day 10 + 5)%Z; channel := "general"; member := "bob"; message := "few" |};
    {| date := day 13; channel := "dev"; member := "ann"; message := "???" |};
    {| date := (day 13 + 7)%Z; channel := "dev"; member := "ann"; message := "great" |} ].

(** Ten thousand messages of one member within one day. *)
Definition flood : DataFrame :=
  repeat {| date := day 3; channel := "general"; member := "ann";
            message := "great" |} (Z.to_nat 10000).

(** [gap_week] with other channels. *)
Definition gap_week_rechanneled : DataFrame :=
  map (fun r => {| date := date r; channel := "random";
                   member := member r; message := message r |}) gap_week.

(** A capability that fails on every text. *)
Definition broken_polarity (text : string) : result Q := Raise "LookupError".

(** Raw rows: two usable ones around a row without message whose date does
    not parse. *)
Definition raw_sample : list raw_row :=
  [ {| raw_date := Some "2024-01-01 09:00"; raw_channel := "general";
       raw_member := "ann"; raw_message := Some "few" |};
    {| raw_date := Some "n/a"; raw_channel := "general";
       raw_member := "bob"; raw_message := None |};
    {| raw_date := Some "2024-01-01 10:30"; raw_channel := "general";
       raw_member := "bob"; raw_message := Some "hello" |} ].

(** A date parser for the sample: it knows the two timestamps above, turns a
    missing value into [NaT] and rejects a column that holds anything
    else. *)
Definition sample_to_datetime (column : list (option string))
    : result (list (option Z)) :=
  Series_apply
    (fun d =>
       match d with
       | None => Ok None
       | Some d =>
           if String.eqb d "2024-01-01 09:00"
           then Ok (Some (day 19723 + 9 * 3600000000000)%Z)
           else if String.eqb d "2024-01-01 10:30"
           then Ok (Some (day 19723 + 10 * 3600000000000 + 30 * 60000000000)%Z)
           else Raise "DateParseError"
       end)
    column.

(** * Properties *)

(** ** Floats *)

Lemma fltb_Fin (a b : Q) : fltb (Fin a) (Fin b) = true <-> a < b.
Proof.
  unfold fltb. rewrite negb_true_iff.
  split.
  - intros H. apply Qnot_le_lt. intros Hle.
    apply Qle_bool_iff in Hle. congruence.
  - intros H. destruct (Qle_bool b a) eqn:E; [| reflexivity].
    apply Qle_bool_iff in E. lra.
Qed.

Lemma fltb_Fin_false (a b : Q) : fltb (Fin a) (Fin b) = false <-> b <= a.
Proof.
  unfold fltb. rewrite negb_false_iff. apply Qle_bool_iff.
Qed.

Lemma Qsum_cons (x : Q) (l : list Q) : Qsum (x :: l) == x + Qsum l.
Proof. unfold Qsum. cbn [fold_right]. apply Qred_correct. Qed.

Lemma fin_eq (p q : Q) : p == q -> fin p = fin q.
Proof. intros H. unfold fin. f_equal. now apply Qred_complete. Qed.

(** [min(100, max(0, x))] is a number of [0, 100] whatever [x] is. *)
Lemma clamp_range (x : float) :
  exists q, py_min (Fin 100) (py_max (Fin 0) x) = Fin q /\ 0 <= q <= 100.
Proof.
  unfold py_max, fgtb.
  destruct (fltb (Fin 0) x) eqn:E0.
  - destruct x as [| q]; [discriminate |].
    apply fltb_Fin in E0.
    unfold py_min. destruct (fltb (Fin q) (Fin 100)) eqn:E1.
    + apply fltb_Fin in E1. exists q. split; [reflexivity | lra].
    + exists 100. split; [reflexivity | lra].
  - unfold py_min. assert (E : fltb (Fin 0) (Fin 100) = true) by reflexivity.
    rewrite E. exists 0. split; [reflexivity | lra].
Qed.

Lemma rint_bounds (lo hi : Z) (q : Q) :
  inject_Z lo <= q <= inject_Z hi -> (lo <= rint q <= hi)%Z.
Proof.
  intros [Hlo Hhi].
  assert (Hf1 : (lo <= Qfloor q)%Z).
  { rewrite <- (Qfloor_Z lo). now apply Qfloor_resp_le. }
  assert (Hf2 : (Qfloor q <= hi)%Z).
  { rewrite <- (Qfloor_Z hi). now apply Qfloor_resp_le. }
  pose proof (Qfloor_le q) as Hfq.
  assert (Hup : inject_Z (Qfloor q) < q -> (Qfloor q + 1 <= hi)%Z).
  { intros Hlt. assert (Qfloor q < hi)%Z; [| lia].
    rewrite Zlt_Qlt. lra. }
  unfold rint.
  remember (inject_Z (Qfloor q)) as fq eqn:Efq.
  destruct (Qcompare_spec (q - fq) (1 # 2)) as [E | E | E].
  - assert (Hlt : fq < q) by lra. specialize (Hup Hlt).
    destruct (Z.even (Qfloor q)); lia.
  - lia.
  - assert (Hlt : fq < q) by lra. specialize (Hup Hlt). lia.
Qed.

Lemma round_Fin (q : Q) (n : nat) : exists q', round (Fin q) n = Fin q'.
Proof. eexists. reflexivity. Qed.

Lemma round1_range (q : Q) :
  0 <= q <= 100 -> exists q', round (Fin q) 1 = Fin q' /\ 0 <= q' <= 100.
Proof.
  intros Hq. eexists. split; [reflexivity |].
  rewrite Qred_correct. change (pow10 1) with 10.
  assert (H : (0 <= rint (q * 10) <= 1000)%Z).
  { apply rint_bounds. change (inject_Z 0) with 0.
    change (inject_Z 1000) with 1000. lra. }
  destruct H as [H1 H2].
  rewrite Zle_Qle in H1, H2.
  change (inject_Z 0) with 0 in H1. change (inject_Z 1000) with 1000 in H2.
  set (k := inject_Z (rint (q * 10))) in *.
  split.
  - apply Qle_shift_div_l; lra.
  - apply Qle_shift_div_r; lra.
Qed.

(** ** The shape of the report *)

Section Report.

Variable polarity : string -> result Q.
Variable today : string.

Lemma get_sentiment_Ok (text : string) :
  get_sentiment polarity text = Ok (polarity_or_zero polarity text).
Proof.
  unfold get_sentiment, polarity_or_zero, try_except.
  now destruct (polarity text).
Qed.

Lemma Series_apply_get_sentiment (s : list string) :
  Series_apply (get_sentiment polarity) s
  = Ok (map (polarity_or_zero polarity) s).
Proof.
  induction s as [| t s IH]; simpl.
  - reflexivity.
  - rewrite get_sentiment_Ok, IH. reflexivity.
Qed.

(** The sentiment column of a DataFrame. *)
Let column (df : DataFrame) : list Q :=
  map (polarity_or_zero polarity) (map message df).

Lemma analyze_returns (df : DataFrame) :
  exists r,
    analyze_team_communication polarity today df = Ok r
    /\ value (communication (metrics r)) = avg_daily_messages df
    /\ value (sentiment (metrics r)) = round (mean (column df)) 2
    /\ value (balance (metrics r))
       = sround (smul (ssub (Fin 1) (participation_std df)) (Fin 100)) 1
    /\ score (communication (metrics r))
       = py_min (Fin 100) (py_max (Fin 0) (fmul (avg_daily_messages df) (Fin 2)))
    /\ score (sentiment (metrics r))
       = py_min (Fin 100)
           (py_max (Fin 0)
              (fmul (fadd (value (sentiment (metrics r))) (Fin 1)) (Fin 50)))
    /\ score (balance (metrics r))
       = py_min (Fin 100) (py_max (Fin 0) (value (balance (metrics r))))
    /\ total_score r
       = round (fadd (fadd (fmul (score (communication (metrics r))) (Fin 0.4))
                           (fmul (score (sentiment (metrics r))) (Fin 0.3)))
                     (fmul (score (balance (metrics r))) (Fin 0.3))) 1
    /\ label (sentiment (metrics r))
       = sentiment_label (value (sentiment (metrics r)))
    /\ recommendations r
       = generate_recommendations (avg_daily_messages df)
           (value (sentiment (metrics r))) (participation_std df).
Proof.
  unfold analyze_team_communication.
  rewrite Series_apply_get_sentiment. cbn [bind].
  eexists. split; [reflexivity |].
  cbn [value score label metrics communication sentiment balance
       total_score recommendations].
  repeat split.
Qed.

End Report.

(** ** Sub-scores and total score *)

Lemma scores_range (polarity : string -> result Q) (today : string)
    (df : DataFrame) :
  exists r c s b,
    analyze_team_communication polarity today df = Ok r
    /\ score (communication (metrics r)) = Fin c /\ 0 <= c <= 100
    /\ score (sentiment (metrics r)) = Fin s /\ 0 <= s <= 100
    /\ score (balance (metrics r)) = Fin b /\ 0 <= b <= 100.
Proof.
  destruct (analyze_returns polarity today df)
    as (r & Hr & _ & _ & _ & Hc & Hs & Hb & _).
  destruct (clamp_range (fmul (avg_daily_messages df) (Fin 2))) as (c & Ec & Rc).
  destruct (clamp_range
              (fmul (fadd (value (sentiment (metrics r))) (Fin 1)) (Fin 50)))
    as (s & Es & Rs).
  destruct (clamp_range (value (balance (metrics r)))) as (b & Eb & Rb).
  exists r, c, s, b.
  rewrite Hc, Hs, Hb. tauto.
Qed.

(** C6: for every non-empty cleaned dataset, each of [communication_score],
    [sentiment_score] and [balance_score] of the report is a number of
    [0, 100], whatever the extremes of the input. *)
Theorem sub_scores_in_range (polarity : string -> result Q) (today : string)
    (df : DataFrame) :
  df <> [] ->
  exists r c s b,
    analyze_team_communication polarity today df = Ok r
    /\ score (communication (metrics r)) = Fin c /\ 0 <= c <= 100
    /\ score (sentiment (metrics r)) = Fin s /\ 0 <= s <= 100
    /\ score (balance (metrics r)) = Fin b /\ 0 <= b <= 100.
Proof.
  intros _. apply scores_range.
Qed.

Lemma sub_scores_in_range_witness :
  flood <> []
  /\ exists r c s b,
       analyze_team_communication sample_polarity "2024-05-01" flood = Ok r
       /\ score (communication (metrics r)) = Fin c /\ 0 <= c <= 100
       /\ score (sentiment (metrics r)) = Fin s /\ 0 <= s <= 100
       /\ score (balance (metrics r)) = Fin b /\ 0 <= b <= 100.
Proof.
  split; [discriminate |].
  apply (sub_scores_in_range sample_polarity "2024-05-01" flood).
  discriminate.
Defined.

(** The flood of one sender: 10000 messages a day are clamped to 100, the
    undefined balance to 0. *)
Example flood_scores :
  exists r,
    analyze_team_communication sample_polarity "2024-05-01" flood = Ok r
    /\ value (communication (metrics r)) = Fin 10000
    /\ score (communication (metrics r)) = Fin 100
    /\ score (sentiment (metrics r)) = Fin 90
    /\ score (balance (metrics r)) = Fin 0
    /\ total_score r = Fin 67.
Proof.
  eexists. split; [vm_compute; reflexivity |]. repeat split.
Qed.

Lemma weighted_sum_range (c s b : Q) :
  0 <= c <= 100 -> 0 <= s <= 100 -> 0 <= b <= 100 ->
  exists t,
    fadd (fadd (fmul (Fin c) (Fin 0.4)) (fmul (Fin s) (Fin 0.3)))
         (fmul (Fin b) (Fin 0.3)) = Fin t
    /\ 0 <= t <= 100.
Proof.
  intros Hc Hs Hb. eexists. split; [reflexivity |].
  rewrite !Qred_correct. lra.
Qed.

Lemma total_score_range (polarity : string -> result Q)
    (today : string) (df : DataFrame) :
  exists r t,
    analyze_team_communication polarity today df = Ok r
    /\ total_score r
       = round (fadd (fadd (fmul (score (communication (metrics r))) (Fin 0.4))
                           (fmul (score (sentiment (metrics r))) (Fin 0.3)))
                     (fmul (score (balance (metrics r))) (Fin 0.3))) 1
    /\ total_score r = Fin t /\ 0 <= t <= 100.
Proof.
  destruct (scores_range polarity today df)
    as (r & c & s & b & Hr & Ec & Rc & Es & Rs & Eb & Rb).
  destruct (analyze_returns polarity today df)
    as (r' & Hr' & _ & _ & _ & _ & _ & _ & Ht & _).
  assert (r' = r) by congruence. subst r'.
  destruct (weighted_sum_range c s b Rc Rs Rb) as (w & Ew & Rw).
  destruct (round1_range w Rw) as (t & Et & Rt).
  exists r, t. split; [exact Hr |]. split; [exact Ht |].
  split; [| exact Rt].
  rewrite Ht, Ec, Es, Eb, Ew. exact Et.
Qed.

(** [gap_week]: 2 * 0.4 + 67.5 * 0.3 + 64.6 * 0.3 = 40.43, reported as 40.4. *)
Example total_score_gap_week :
  exists r,
    analyze_team_communication sample_polarity "2024-05-01" gap_week = Ok r
    /\ score (communication (metrics r)) = Fin 2
    /\ score (sentiment (metrics r)) = Fin (135 # 2)
    /\ score (balance (metrics r)) = Fin (323 # 5)
    /\ total_score r = Fin (202 # 5).
Proof.
  eexists. split; [vm_compute; reflexivity |]. repeat split.
Qed.

(** ** Recommendations *)

Lemma warnings_distinct :
  low_frequency_warning <> positive_fallback
  /\ tone_warning <> positive_fallback
  /\ uneven_participation_warning <> positive_fallback.
Proof. repeat split; discriminate. Qed.

(** C7: for every triple of raw statistics the recommendation list is, in
    this order, the low-frequency warning if [avg_daily_messages < 5], the
    tone warning if [avg_sentiment < 0.1] and the uneven-participation
    warning if [participation_std > 0.3], every matching rule included; it
    is the single positive fallback message if and only if no rule fired,
    so it is never empty and the fallback never accompanies a warning. *)
Theorem recommendations_by_rules (avg_daily_messages avg_sentiment : float)
    (participation_std : sfloat) :
  let rule1 := fltb avg_daily_messages (Fin 5) in
  let rule2 := fltb avg_sentiment (Fin 0.1) in
  let rule3 := sgtb participation_std (Fin 0.3) in
  let warnings :=
    (if rule1 then [low_frequency_warning] else [])
    ++ (if rule2 then [tone_warning] else [])
    ++ (if rule3 then [uneven_participation_warning] else []) in
  let recs :=
    generate_recommendations avg_daily_messages avg_sentiment participation_std in
  recs = (if rule1 || rule2 || rule3 then warnings else [positive_fallback])
  /\ recs <> []
  /\ (In positive_fallback recs <-> rule1 = false /\ rule2 = false /\ rule3 = false)
  /\ (In positive_fallback recs <-> recs = [positive_fallback]).
Proof.
  destruct warnings_distinct as (D1 & D2 & D3).
  unfold generate_recommendations. cbv zeta.
  destruct (fltb avg_daily_messages (Fin 5)),
           (fltb avg_sentiment (Fin 0.1)),
           (sgtb participation_std (Fin 0.3));
    cbn [app orb In];
    (split; [reflexivity |]);
    (split; [discriminate |]);
    split; split; intros H;
    try solve [ intuition congruence ];
    try solve [ injection H; intros; subst; intuition congruence ].
Qed.

(** ** Sentiment label *)

Lemma mean_Fin (l : list Q) : l <> [] -> exists q, mean l = Fin q.
Proof.
  destruct l as [| x l]; [congruence |]. intros _. eexists. reflexivity.
Qed.

Lemma sentiment_label_Fin (q : Q) :
  (sentiment_label (Fin q) = "Позитивный" <-> 0.2 < q)
  /\ (sentiment_label (Fin q) = "Нейтральный" <-> -0.1 < q <= 0.2)
  /\ (sentiment_label (Fin q) = "Негативный" <-> q <= -0.1).
Proof.
  unfold sentiment_label, fgtb.
  destruct (fltb (Fin 0.2) (Fin q)) eqn:E1;
    [apply fltb_Fin in E1 | apply fltb_Fin_false in E1];
    (destruct (fltb (Fin (-0.1)) (Fin q)) eqn:E2;
     [apply fltb_Fin in E2 | apply fltb_Fin_false in E2]);
    (split; [| split]); split; intros H;
    try reflexivity; try discriminate; lra.
Qed.

Lemma avg_sentiment_Fin (polarity : string -> result Q) (today : string)
    (df : DataFrame) :
  df <> [] ->
  exists r q,
    analyze_team_communication polarity today df = Ok r
    /\ value (sentiment (metrics r)) = Fin q
    /\ label (sentiment (metrics r)) = sentiment_label (Fin q).
Proof.
  intros Hdf.
  destruct (analyze_returns polarity today df)
    as (r & Hr & _ & Hv & _ & _ & _ & _ & _ & Hl & _).
  destruct (mean_Fin (map (polarity_or_zero polarity) (map message df)))
    as (m & Em).
  { destruct df; [congruence | discriminate]. }
  rewrite Em in Hv.
  destruct (round_Fin m 2) as (q & Eq). rewrite Eq in Hv.
  exists r, q. rewrite Hl, Hv. auto.
Qed.

(** C1 (as the code has it): for every non-empty cleaned dataset the
    sentiment label is a function of the rounded [avg_sentiment]: it is
    "Позитивный" (Positive) exactly when [avg_sentiment > 0.2], "Нейтральный"
    (Neutral) exactly when [-0.1 < avg_sentiment <= 0.2], and "Негативный"
    (Negative) exactly when [avg_sentiment <= -0.1]; so [0.2] is Neutral and
    [-0.1] is Negative. *)
Theorem sentiment_label_thresholds (polarity : string -> result Q)
    (today : string) (df : DataFrame) :
  df <> [] ->
  exists r q,
    analyze_team_communication polarity today df = Ok r
    /\ value (sentiment (metrics r)) = Fin q
    /\ (label (sentiment (metrics r)) = "Позитивный" <-> 0.2 < q)
    /\ (label (sentiment (metrics r)) = "Нейтральный" <-> -0.1 < q <= 0.2)
    /\ (label (sentiment (metrics r)) = "Негативный" <-> q <= -0.1).
Proof.
  intros Hdf.
  destruct (avg_sentiment_Fin polarity today df Hdf) as (r & q & Hr & Hv & Hl).
  exists r, q. rewrite Hl.
  split; [exact Hr |]. split; [exact Hv |]. apply sentiment_label_Fin.
Qed.

Lemma sentiment_label_thresholds_witness :
  two_members <> []
  /\ exists r q,
       analyze_team_communication sample_polarity "2024-05-01" two_members = Ok r
       /\ value (sentiment (metrics r)) = Fin q
       /\ (label (sentiment (metrics r)) = "Позитивный" <-> 0.2 < q)
       /\ (label (sentiment (metrics r)) = "Нейтральный" <-> -0.1 < q <= 0.2)
       /\ (label (sentiment (metrics r)) = "Негативный" <-> q <= -0.1).
Proof.
  split; [discriminate |].
  apply (sentiment_label_thresholds sample_polarity "2024-05-01" two_members).
  discriminate.
Defined.

(** C1, the claim as stated fails: a dataset whose [avg_sentiment] is exactly
    [-0.1] is labelled "Негативный" (Negative), not "Нейтральный" (Neutral). *)
Lemma sentiment_label_at_minus_one_tenth :
  exists r,
    analyze_team_communication sample_polarity "2024-05-01" two_members = Ok r
    /\ value (sentiment (metrics r)) = Fin (-1 # 10)
    /\ label (sentiment (metrics r)) = "Негативный"
    /\ label (sentiment (metrics r)) <> "Нейтральный".
Proof.
  eexists. split; [vm_compute; reflexivity |].
  cbn [value label sentiment metrics].
  repeat split. discriminate.
Qed.

(** ** Sentiment failures *)

(** C9: for every cleaned dataset and every record in it, when the sentiment
    capability raises on the record's text the polarity [0] stands for that
    record only (every other record keeps the capability's value); the
    failure does not propagate and the run returns a full report, whose
    [avg_sentiment] is the rounded mean of that column. *)
Theorem sentiment_failure_is_local (polarity : string -> result Q)
    (today : string) (df : DataFrame) :
  exists col r,
    Series_apply (get_sentiment polarity) (map message df) = Ok col
    /\ List.length col = List.length df
    /\ (forall i rec e,
          nth_error df i = Some rec -> polarity (message rec) = Raise e ->
          nth_error col i = Some 0)
    /\ (forall i rec p,
          nth_error df i = Some rec -> polarity (message rec) = Ok p ->
          nth_error col i = Some p)
    /\ analyze_team_communication polarity today df = Ok r
    /\ value (sentiment (metrics r)) = round (mean col) 2.
Proof.
  destruct (analyze_returns polarity today df) as (r & Hr & _ & Hv & _).
  exists (map (polarity_or_zero polarity) (map message df)), r.
  split; [apply Series_apply_get_sentiment |].
  split; [now rewrite !length_map |].
  repeat split; auto.
  - intros i rec e Hi He.
    rewrite !nth_error_map, Hi. cbn. unfold polarity_or_zero. now rewrite He.
  - intros i rec p Hi Hp.
    rewrite !nth_error_map, Hi. cbn. unfold polarity_or_zero. now rewrite Hp.
Qed.

(** The capability fails on the third row of [gap_week]: the column holds
    [0] there and the run completes. *)
Example sentiment_failure_gap_week :
  sample_polarity "???" = Raise "TypeError"
  /\ Series_apply (get_sentiment sample_polarity) (map message gap_week)
     = Ok [0.8; -0.2; 0; 0.8]
  /\ exists r,
       analyze_team_communication sample_polarity "2024-05-01" gap_week = Ok r
       /\ value (sentiment (metrics r)) = Fin (7 # 20).
Proof.
  split; [reflexivity |]. split; [reflexivity |].
  eexists. split; [vm_compute; reflexivity |]. reflexivity.
Qed.

(** ** The channel column *)

Lemma same_but_channel_columns (df1 df2 : DataFrame) :
  Forall2 same_but_channel df1 df2 ->
  map date df1 = map date df2
  /\ map member df1 = map member df2
  /\ map message df1 = map message df2.
Proof.
  induction 1 as [| r1 r2 l1 l2 (Hd & Hm & Ht) _ (IHd & IHm & IHt)]; cbn.
  - auto.
  - rewrite Hd, Hm, Ht, IHd, IHm, IHt. auto.
Qed.

(** C10: for every two non-empty cleaned datasets that are identical except
    for the [channel] field of their records, the run returns the same
    report: metric values, scores, labels, [total_score] and the
    recommendation list are identical. *)
Theorem channel_is_ignored (polarity : string -> result Q) (today : string)
    (df1 df2 : DataFrame) :
  df1 <> [] -> df2 <> [] ->
  Forall2 same_but_channel df1 df2 ->
  exists r,
    analyze_team_communication polarity today df1 = Ok r
    /\ analyze_team_communication polarity today df2 = Ok r.
Proof.
  intros _ _ H.
  destruct (same_but_channel_columns df1 df2 H) as (Hd & Hm & Ht).
  destruct (analyze_returns polarity today df1) as (r & Hr & _).
  exists r. split; [exact Hr |].
  rewrite <- Hr.
  unfold analyze_team_communication, avg_daily_messages, daily_activity,
    participation_std, participation.
  rewrite Hd, Hm, Ht. reflexivity.
Qed.

Lemma channel_is_ignored_witness :
  exists r,
    analyze_team_communication sample_polarity "2024-05-01" gap_week = Ok r
    /\ analyze_team_communication sample_polarity "2024-05-01"
         gap_week_rechanneled = Ok r.
Proof.
  apply (channel_is_ignored sample_polarity "2024-05-01"
           gap_week gap_week_rechanneled).
  - discriminate.
  - discriminate.
  - repeat constructor.
Defined.

(** ** Daily activity *)

Lemma Zsum_app (l1 l2 : list Z) : Zsum (l1 ++ l2) = (Zsum l1 + Zsum l2)%Z.
Proof.
  unfold Zsum. induction l1 as [| x l1 IH]; cbn; [reflexivity |].
  rewrite IH. lia.
Qed.

Lemma Zsum_map_add {A} (f g : A -> Z) (l : list A) :
  Zsum (map (fun x => (f x + g x)%Z) l) = (Zsum (map f l) + Zsum (map g l))%Z.
Proof.
  unfold Zsum. induction l as [| x l IH]; cbn; [reflexivity |].
  rewrite IH. lia.
Qed.

Lemma Zsum_map_ext {A} (f g : A -> Z) (l : list A) :
  (forall x, In x l -> f x = g x) -> Zsum (map f l) = Zsum (map g l).
Proof.
  intros H. f_equal. apply map_ext_in. exact H.
Qed.

Lemma Zmin_list_le (t : Z) (ts : list Z) (x : Z) :
  In x (t :: ts) -> (Zmin_list t ts <= x)%Z.
Proof.
  induction ts as [| y ts IH]; cbn.
  - intros [-> | []]. lia.
  - intros [-> | [-> | H]].
    + cbn in IH. specialize (IH (or_introl eq_refl)). unfold Zmin_list in IH. lia.
    + lia.
    + cbn in IH. specialize (IH (or_intror H)). unfold Zmin_list in IH. lia.
Qed.

Lemma Zmax_list_ge (t : Z) (ts : list Z) (x : Z) :
  In x (t :: ts) -> (x <= Zmax_list t ts)%Z.
Proof.
  induction ts as [| y ts IH]; cbn.
  - intros [-> | []]. lia.
  - intros [-> | [-> | H]].
    + cbn in IH. specialize (IH (or_introl eq_refl)). unfold Zmax_list in IH. lia.
    + lia.
    + cbn in IH. specialize (IH (or_intror H)). unfold Zmax_list in IH. lia.
Qed.

Lemma Zmin_list_In (t : Z) (ts : list Z) : In (Zmin_list t ts) (t :: ts).
Proof.
  induction ts as [| y ts IH]; cbn; [auto |].
  unfold Zmin_list in IH. cbn in IH.
  destruct (Z.min_spec y (fold_right Z.min t ts)) as [[_ ->] | [_ ->]]; tauto.
Qed.

Lemma Zmax_list_In (t : Z) (ts : list Z) : In (Zmax_list t ts) (t :: ts).
Proof.
  induction ts as [| y ts IH]; cbn; [auto |].
  unfold Zmax_list in IH. cbn in IH.
  destruct (Z.max_spec y (fold_right Z.max t ts)) as [[_ ->] | [_ ->]]; tauto.
Qed.

Lemma day_of_mono (a b : Z) : (a <= b)%Z -> (day_of a <= day_of b)%Z.
Proof.
  intros H. unfold day_of. apply Z.div_le_mono; [reflexivity | exact H].
Qed.

Lemma day_range_length (first : Z) (n : nat) :
  List.length (day_range first n) = n.
Proof. unfold day_range. now rewrite length_map, length_seq. Qed.

Lemma day_range_S (first : Z) (n : nat) :
  day_range first (S n) = day_range first n ++ [(first + Z.of_nat n)%Z].
Proof.
  unfold day_range. rewrite seq_S, map_app. reflexivity.
Qed.

Lemma day_range_nth (first : Z) (n i : nat) :
  (i < n)%nat -> nth_error (day_range first n) i = Some (first + Z.of_nat i)%Z.
Proof.
  intros H. unfold day_range.
  rewrite nth_error_map, nth_error_seq.
  destruct (Nat.ltb_spec i n); [reflexivity | lia].
Qed.

Lemma day_range_In (first : Z) (n : nat) (d : Z) :
  In d (day_range first n) <-> (first <= d < first + Z.of_nat n)%Z.
Proof.
  unfold day_range. rewrite in_map_iff. split.
  - intros (i & <- & Hi). apply in_seq in Hi. lia.
  - intros H. exists (Z.to_nat (d - first)). split; [lia |].
    apply in_seq. lia.
Qed.

(** Each day of the range is counted once. *)
Lemma indicator_sum (x first : Z) (n : nat) :
  Zsum (map (fun d => if Z.eq_dec x d then 1%Z else 0%Z) (day_range first n))
  = if ((first <=? x) && (x <? first + Z.of_nat n))%Z then 1%Z else 0%Z.
Proof.
  induction n as [| n IH].
  - cbn. destruct (first <=? x)%Z eqn:E1, (x <? first + 0)%Z eqn:E2;
      try reflexivity. lia.
  - rewrite day_range_S, map_app, Zsum_app, IH. cbn [map Zsum fold_right].
    destruct (Z.eq_dec x (first + Z.of_nat n)) as [E | Hne];
      destruct (Z.leb_spec first x), (Z.ltb_spec x (first + Z.of_nat n)),
               (Z.ltb_spec x (first + Z.of_nat (S n))); cbn; lia.
Qed.

Lemma count_day_cons (x : Z) (l : list Z) (d : Z) :
  count_day (x :: l) d
  = ((if Z.eq_dec x d then 1 else 0) + count_day l d)%Z.
Proof.
  unfold count_day. cbn. destruct (Z.eq_dec x d); lia.
Qed.

(** Every row falls in exactly one bin of a range that covers its day. *)
Lemma count_day_total (days : list Z) (first : Z) (n : nat) :
  (forall d, In d days -> (first <= d < first + Z.of_nat n)%Z) ->
  Zsum (map (count_day days) (day_range first n))
  = Z.of_nat (List.length days).
Proof.
  induction days as [| x l IH]; intros Hin.
  - cbn [List.length]. induction (day_range first n) as [| d R IHR]; cbn;
      [reflexivity |]. unfold Zsum in IHR. rewrite IHR. reflexivity.
  - rewrite (Zsum_map_ext _ _ _ (fun d _ => count_day_cons x l d)).
    rewrite Zsum_map_add, indicator_sum, IH.
    + assert (Hx : (first <= x < first + Z.of_nat n)%Z)
        by (apply Hin; left; reflexivity).
      destruct (Z.leb_spec first x), (Z.ltb_spec x (first + Z.of_nat n));
        cbn [andb List.length]; lia.
    + intros d Hd. apply Hin. right. exact Hd.
Qed.

Lemma count_day_messages_on (df : DataFrame) (d : Z) :
  count_day (map day_of (map date df)) d = messages_on df d.
Proof.
  unfold count_day, messages_on. f_equal.
  induction df as [| r df IH]; cbn; [reflexivity |].
  destruct (Z.eq_dec (day_of (date r)) d) as [E | E].
  - rewrite (proj2 (Z.eqb_eq _ _) E). cbn. now rewrite IH.
  - rewrite (proj2 (Z.eqb_neq _ _) E). exact IH.
Qed.

Lemma messages_on_zero (df : DataFrame) (d : Z) :
  (forall r, In r df -> day_of (date r) <> d) -> messages_on df d = 0%Z.
Proof.
  unfold messages_on. induction df as [| r df IH]; intros H; [reflexivity |].
  cbn. destruct (Z.eqb_spec (day_of (date r)) d) as [E | E].
  - exfalso. apply (H r); [left; reflexivity | exact E].
  - apply IH. intros r' Hr'. apply H. right. exact Hr'.
Qed.

Lemma Qsum_inject_Z (l : list Z) : Qsum (map inject_Z l) == inject_Z (Zsum l).
Proof.
  induction l as [| x l IH]; cbn [map]; [reflexivity |].
  rewrite Qsum_cons, IH. cbn [Zsum fold_right]. rewrite inject_Z_plus.
  reflexivity.
Qed.

Lemma mean_inject_Z (l : list Z) :
  l <> [] ->
  mean (map inject_Z l)
  = fin (inject_Z (Zsum l) / inject_Z (Z.of_nat (List.length l))).
Proof.
  destruct l as [| x l]; [congruence |]. intros _.
  cbn [map mean]. apply fin_eq.
  change (inject_Z x :: map inject_Z l) with (map inject_Z (x :: l)).
  rewrite Qsum_inject_Z. unfold Qlen. rewrite length_map. reflexivity.
Qed.

Lemma daily_activity_unfold (df : DataFrame) (tmin tmax : Z) :
  df <> [] ->
  In tmin (map date df) -> In tmax (map date df) ->
  (forall r, In r df -> (tmin <= date r <= tmax)%Z) ->
  daily_activity df
  = map (messages_on df)
        (day_range (day_of tmin) (Z.to_nat (day_of tmax - day_of tmin + 1))).
Proof.
  intros Hdf Hmin Hmax Hall.
  unfold daily_activity, resample_D_size.
  destruct (map date df) as [| t ts] eqn:Edates.
  { destruct df; [congruence | discriminate]. }
  assert (Hb : forall x, In x (t :: ts) -> (tmin <= x <= tmax)%Z).
  { intros x Hx. rewrite <- Edates in Hx. apply in_map_iff in Hx.
    destruct Hx as (r & <- & Hr). now apply Hall. }
  assert (Emin : Zmin_list t ts = tmin).
  { apply Z.le_antisymm.
    - now apply Zmin_list_le.
    - apply Hb, Zmin_list_In. }
  assert (Emax : Zmax_list t ts = tmax).
  { apply Z.le_antisymm.
    - apply Hb, Zmax_list_In.
    - now apply Zmax_list_ge. }
  rewrite Emin, Emax, <- Edates.
  apply map_ext. intros d. apply count_day_messages_on.
Qed.

(** C8: for every non-empty cleaned dataset, with [tmin] and [tmax] its
    earliest and latest timestamps, the daily series has one entry for every
    calendar day from the day of [tmin] to the day of [tmax] inclusive, the
    entry of a day being the number of messages of that day (zero for a day
    without messages), and [avg_daily_messages] is the mean of that series,
    that is the number of messages over the number of calendar days,
    rounded to 1 decimal. *)
Theorem avg_daily_messages_over_calendar_days (df : DataFrame) (tmin tmax : Z) :
  df <> [] ->
  In tmin (map date df) -> In tmax (map date df) ->
  (forall r, In r df -> (tmin <= date r <= tmax)%Z) ->
  let first := day_of tmin in
  let last := day_of tmax in
  let ndays := (last - first + 1)%Z in
  (0 < ndays)%Z
  /\ List.length (daily_activity df) = Z.to_nat ndays
  /\ (forall d, (first <= d <= last)%Z ->
        nth_error (daily_activity df) (Z.to_nat (d - first))
        = Some (messages_on df d))
  /\ (forall d, (first <= d <= last)%Z ->
        (forall r, In r df -> day_of (date r) <> d) ->
        nth_error (daily_activity df) (Z.to_nat (d - first)) = Some 0%Z)
  /\ Zsum (daily_activity df) = Z.of_nat (List.length df)
  /\ avg_daily_messages df
     = round (fin (inject_Z (Zsum (daily_activity df)) / inject_Z ndays)) 1
  /\ avg_daily_messages df
     = round (fin (inject_Z (Z.of_nat (List.length df)) / inject_Z ndays)) 1.
Proof.
  intros Hdf Hmin Hmax Hall first last ndays.
  pose proof (daily_activity_unfold df tmin tmax Hdf Hmin Hmax Hall) as Hda.
  fold first last ndays in Hda.
  assert (Hord : (first <= last)%Z).
  { apply day_of_mono. apply in_map_iff in Hmax.
    destruct Hmax as (r & <- & Hr). apply (Hall r Hr). }
  assert (Hpos : (0 < ndays)%Z) by (unfold ndays; lia).
  assert (Hlen : List.length (daily_activity df) = Z.to_nat ndays).
  { rewrite Hda, length_map. apply day_range_length. }
  assert (Hnth : forall d, (first <= d <= last)%Z ->
            nth_error (daily_activity df) (Z.to_nat (d - first))
            = Some (messages_on df d)).
  { intros d Hd. rewrite Hda, nth_error_map, day_range_nth.
    - cbn. do 2 f_equal. lia.
    - unfold ndays. lia. }
  assert (Hsum : Zsum (daily_activity df) = Z.of_nat (List.length df)).
  { rewrite Hda.
    rewrite (Zsum_map_ext _ (count_day (map day_of (map date df))));
      [| intros; symmetry; apply count_day_messages_on].
    rewrite count_day_total; [now rewrite !length_map |].
    intros d Hd. apply in_map_iff in Hd. destruct Hd as (t & <- & Ht).
    apply in_map_iff in Ht. destruct Ht as (r & <- & Hr).
    destruct (Hall r Hr) as [H1 H2].
    apply day_of_mono in H1, H2. fold first in H1. fold last in H2.
    unfold ndays. lia. }
  assert (Havg : avg_daily_messages df
                 = round (fin (inject_Z (Zsum (daily_activity df))
                               / inject_Z ndays)) 1).
  { unfold avg_daily_messages. rewrite mean_inject_Z.
    - rewrite Hlen. rewrite Z2Nat.id by lia. reflexivity.
    - intros E. rewrite E in Hlen. cbn in Hlen. lia. }
  repeat split; try assumption.
  - intros d Hd Hnone. rewrite (Hnth d Hd).
    now rewrite messages_on_zero.
  - now rewrite <- Hsum.
Qed.

Lemma avg_daily_messages_over_calendar_days_witness :
  (0 < 4)%Z
  /\ daily_activity gap_week = [2; 0; 0; 2]%Z
  /\ avg_daily_messages gap_week = Fin 1.
Proof.
  destruct (avg_daily_messages_over_calendar_days gap_week (day 10) (day 13 + 7))
    as (Hpos & _ & _ & _ & _ & _ & Havg).
  - discriminate.
  - cbn. tauto.
  - cbn. tauto.
  - intros r [<- | [<- | [<- | [<- | []]]]]; cbn; lia.
  - split; [exact Hpos |]. split; [reflexivity |].
    rewrite Havg. reflexivity.
Defined.

(** ** Participation *)

Lemma Zsum_perm (l1 l2 : list Z) : Permutation l1 l2 -> Zsum l1 = Zsum l2.
Proof.
  unfold Zsum. induction 1; cbn; lia.
Qed.

Lemma Qsum_perm (l1 l2 : list Q) : Permutation l1 l2 -> Qsum l1 == Qsum l2.
Proof.
  induction 1 as [| x l l' _ IH | x y l | l l' l'' _ IH1 _ IH2].
  - reflexivity.
  - now rewrite !Qsum_cons, IH.
  - rewrite !Qsum_cons. ring.
  - now rewrite IH1.
Qed.

Lemma Qsum_map_ext {A} (f g : A -> Q) (l : list A) :
  (forall x, In x l -> f x == g x) -> Qsum (map f l) == Qsum (map g l).
Proof.
  induction l as [| x l IH]; intros H; cbn [map]; [reflexivity |].
  rewrite !Qsum_cons, IH, (H x).
  - reflexivity.
  - left. reflexivity.
  - intros y Hy. apply H. right. exact Hy.
Qed.

Lemma Qsum_squares_nonneg {A} (f : A -> Q) (l : list A) :
  0 <= Qsum (map (fun x => f x * f x) l).
Proof.
  induction l as [| x l IH]; cbn [map]; [discriminate |].
  rewrite Qsum_cons.
  assert (Hsq : 0 <= f x * f x) by nra. lra.
Qed.

Lemma insert_desc_perm (x : string * Z) (l : list (string * Z)) :
  Permutation (insert_desc x l) (x :: l).
Proof.
  induction l as [| y l IH]; cbn; [reflexivity |].
  destruct (snd y <=? snd x)%Z; [reflexivity |].
  rewrite IH. apply perm_swap.
Qed.

Lemma sort_desc_perm (l : list (string * Z)) : Permutation (sort_desc l) l.
Proof.
  induction l as [| x l IH]; cbn; [reflexivity |].
  rewrite insert_desc_perm. now constructor.
Qed.

Lemma unique_In (s : list string) (x : string) : In x (unique s) <-> In x s.
Proof.
  induction s as [| y s IH]; cbn; [tauto |].
  rewrite filter_In, IH, negb_true_iff, String.eqb_neq.
  destruct (string_dec y x); tauto.
Qed.

Lemma unique_NoDup (s : list string) : NoDup (unique s).
Proof.
  induction s as [| y s IH]; cbn; constructor.
  - rewrite filter_In, negb_true_iff, String.eqb_neq. tauto.
  - now apply NoDup_filter.
Qed.

Lemma unique_perm (s : list string) :
  Permutation (unique s) (nodup string_dec s).
Proof.
  apply NoDup_Permutation.
  - apply unique_NoDup.
  - apply NoDup_nodup.
  - intros x. now rewrite unique_In, nodup_In.
Qed.

Lemma value_counts_perm (s : list string) :
  Permutation (value_counts s)
    (map (fun m => (m, Z.of_nat (count_occ string_dec s m)))
         (nodup string_dec s)).
Proof.
  unfold value_counts. rewrite sort_desc_perm.
  apply Permutation_map, unique_perm.
Qed.

(** A value occurs once in a duplicate-free list that holds it. *)
Lemma indicator_sum_NoDup (ms : list string) (x : string) :
  NoDup ms -> In x ms ->
  Zsum (map (fun m => if string_dec x m then 1%Z else 0%Z) ms) = 1%Z.
Proof.
  intros Hnd Hin.
  assert (E : Zsum (map (fun m => if string_dec x m then 1%Z else 0%Z) ms)
              = Z.of_nat (count_occ string_dec ms x)).
  { clear. unfold Zsum. induction ms as [| m ms IH]; cbn; [reflexivity |].
    rewrite IH. destruct (string_dec x m), (string_dec m x); congruence || lia. }
  rewrite E. rewrite (proj1 (NoDup_count_occ' string_dec ms) Hnd x Hin).
  reflexivity.
Qed.

(** The counts of the distinct values add up to the length of the column. *)
Lemma count_total (s ms : list string) :
  NoDup ms -> (forall x, In x s -> In x ms) ->
  Zsum (map (fun m => Z.of_nat (count_occ string_dec s m)) ms)
  = Z.of_nat (List.length s).
Proof.
  intros Hnd. induction s as [| x s IH]; intros Hin.
  - cbn [count_occ List.length]. clear. unfold Zsum.
    induction ms as [| m ms IH]; cbn in *; [reflexivity | exact IH].
  - rewrite (Zsum_map_ext _
               (fun m => ((if string_dec x m then 1 else 0)
                          + Z.of_nat (count_occ string_dec s m))%Z)).
    + rewrite Zsum_map_add, indicator_sum_NoDup, IH.
      * cbn [List.length]. lia.
      * intros y Hy. apply Hin. right. exact Hy.
      * exact Hnd.
      * apply Hin. left. reflexivity.
    + intros m _. cbn. destruct (string_dec x m); lia.
Qed.

Lemma value_counts_total (s : list string) :
  Zsum (map snd (value_counts s)) = Z.of_nat (List.length s).
Proof.
  rewrite (Zsum_perm _ _ (Permutation_map snd (value_counts_perm s))).
  rewrite map_map. cbn [snd].
  apply count_total.
  - apply NoDup_nodup.
  - intros x Hx. now apply nodup_In.
Qed.

(** The share series: one entry per distinct sender, its count over the
    number of rows. *)
Lemma participation_perm (df : DataFrame) :
  Permutation (participation df)
    (map (fun m => (m, Qred (share df m))) (distinct_senders df)).
Proof.
  unfold participation, value_counts_normalize.
  rewrite value_counts_total, length_map.
  rewrite (Permutation_map _ (value_counts_perm (map member df))).
  rewrite map_map. reflexivity.
Qed.

Lemma participation_length (df : DataFrame) :
  List.length (participation df) = List.length (distinct_senders df).
Proof.
  rewrite (Permutation_length (participation_perm df)). apply length_map.
Qed.

Lemma var_NaN (l : list Q) : (List.length l <= 1)%nat -> var l = NaN.
Proof.
  intros H. unfold var. now rewrite (proj2 (Nat.leb_le _ _) H).
Qed.

Lemma sample_variance_nonneg {A} (f : A -> Q) (l : list A) :
  (2 <= List.length l)%nat -> 0 <= sample_variance f l.
Proof.
  intros Hn. unfold sample_variance. cbv zeta.
  apply Qle_shift_div_l.
  - assert (H : inject_Z 2 <= inject_Z (Z.of_nat (List.length l))).
    { rewrite <- Zle_Qle. lia. }
    change (inject_Z 2) with 2 in H. lra.
  - rewrite Qmult_0_l.
    apply (Qsum_squares_nonneg
             (fun x => f x - Qsum (map f l) / inject_Z (Z.of_nat (List.length l)))).
Qed.

(** The variance of a series that lists, in any order, the values [h x]. *)
Lemma var_of_values {A} (S : list Q) (h f : A -> Q) (l : list A) :
  Permutation S (map h l) -> (forall x, h x == f x) ->
  (2 <= List.length l)%nat ->
  exists v, var S = Fin v /\ v == sample_variance f l.
Proof.
  intros HP Hext Hn.
  assert (Hlen : List.length S = List.length l).
  { rewrite (Permutation_length HP). apply length_map. }
  unfold var.
  destruct (Nat.leb_spec (List.length S) 1) as [Hle | _]; [lia |].
  eexists. split; [reflexivity |].
  rewrite Qred_correct. unfold sample_variance, Qlen. cbv zeta.
  rewrite Hlen.
  set (n := inject_Z (Z.of_nat (List.length l))).
  assert (Hsum : Qsum S == Qsum (map f l)).
  { rewrite (Qsum_perm _ _ HP). apply Qsum_map_ext. intros x _. apply Hext. }
  assert (Hsq : Qsum (map (fun x => (Qsum S / n - x) * (Qsum S / n - x)) S)
                == Qsum (map (fun x => (f x - Qsum (map f l) / n)
                                       * (f x - Qsum (map f l) / n)) l)).
  { rewrite (Qsum_perm _ _ (Permutation_map _ HP)), map_map.
    apply Qsum_map_ext. intros x _. rewrite Hext, Hsum. ring. }
  rewrite Hsq. reflexivity.
Qed.

Lemma std_NaN (l : list Q) : (List.length l <= 1)%nat -> std l = SNaN.
Proof. intros H. unfold std. now rewrite var_NaN. Qed.

Lemma std_of_values {A} (S : list Q) (h f : A -> Q) (l : list A) :
  Permutation S (map h l) -> (forall x, h x == f x) ->
  (2 <= List.length l)%nat ->
  exists v, std S = Surd 0 1 v /\ v == sample_variance f l /\ 0 <= v.
Proof.
  intros HP Hext Hn.
  destruct (var_of_values S h f l HP Hext Hn) as (v & Ev & Hv).
  pose proof (sample_variance_nonneg f l Hn) as Hpos.
  unfold std. rewrite Ev. cbn [sqrt].
  assert (E : Qle_bool 0 v = true) by (apply Qle_bool_iff; now rewrite Hv).
  rewrite E. exists (Qred v).
  split; [reflexivity |]. rewrite Qred_correct, Hv. split; [reflexivity | exact Hpos].
Qed.

Lemma participation_shares (df : DataFrame) :
  Permutation (map snd (participation df))
    (map (fun m => Qred (share df m)) (distinct_senders df)).
Proof.
  rewrite (Permutation_map snd (participation_perm df)), map_map.
  reflexivity.
Qed.

Lemma participation_std_NaN (df : DataFrame) :
  (List.length (distinct_senders df) <= 1)%nat -> participation_std df = SNaN.
Proof.
  intros H. unfold participation_std. apply std_NaN.
  now rewrite length_map, participation_length.
Qed.

Lemma participation_std_Surd (df : DataFrame) :
  (2 <= List.length (distinct_senders df))%nat ->
  exists v,
    participation_std df = Surd 0 1 v
    /\ v == sample_variance (share df) (distinct_senders df)
    /\ 0 <= v.
Proof.
  intros H. unfold participation_std.
  apply (std_of_values _ (fun m => Qred (share df m))).
  - apply participation_shares.
  - intros m. apply Qred_correct.
  - exact H.
Qed.

(** One sender: the distinct senders are that sender alone. *)
Lemma single_sender_distinct (df : DataFrame) (m : string) :
  df <> [] -> (forall r, In r df -> member r = m) ->
  distinct_senders df = [m].
Proof.
  unfold distinct_senders.
  induction df as [| r df IH]; [congruence |]. intros _ Hall.
  cbn [map nodup].
  assert (Er : member r = m) by (apply Hall; left; reflexivity).
  destruct df as [| r' df'].
  - cbn. now rewrite Er.
  - assert (Hin : In (member r) (map member (r' :: df'))).
    { cbn. left. rewrite Er. apply Hall. right. left. reflexivity. }
    destruct (in_dec string_dec (member r) (map member (r' :: df'))) as [_ | Hn];
      [| contradiction].
    apply IH; [discriminate |]. intros x Hx. apply Hall. right. exact Hx.
Qed.

Lemma distinct_senders_nonempty (df : DataFrame) :
  df <> [] -> (1 <= List.length (distinct_senders df))%nat.
Proof.
  destruct df as [| r df]; [congruence |]. intros _.
  assert (H : In (member r) (distinct_senders (r :: df))).
  { apply nodup_In. left. reflexivity. }
  destruct (distinct_senders (r :: df)); [destruct H | cbn; lia].
Qed.

(** C4: the share series holds one entry per distinct sender of the dataset
    (a member without messages has none), each entry being the sender's
    count over the number of messages; [participation_std] is the sample
    standard deviation of those shares, the square root of the squared
    deviations from their mean over [n - 1]; with fewer than two distinct
    senders, in particular when one member sent every message, it is NaN. *)
Theorem participation_std_is_sample_deviation (df : DataFrame) :
  let senders := distinct_senders df in
  let n := List.length senders in
  NoDup senders
  /\ (forall m, In m senders <-> exists r, In r df /\ member r = m)
  /\ Permutation (map fst (participation df)) senders
  /\ (forall m s, In (m, s) (participation df) -> s == share df m)
  /\ ((2 <= n)%nat ->
      exists v, participation_std df = Surd 0 1 v
                /\ v == sample_variance (share df) senders /\ 0 <= v)
  /\ ((n <= 1)%nat -> participation_std df = SNaN)
  /\ (forall m, df <> [] -> (forall r, In r df -> member r = m) ->
      n = 1%nat /\ participation_std df = SNaN).
Proof.
  cbv zeta. repeat apply conj.
  - apply NoDup_nodup.
  - intros m. unfold distinct_senders. rewrite nodup_In, in_map_iff.
    split; intros (r & H1 & H2); exists r; auto.
  - rewrite (Permutation_map fst (participation_perm df)), map_map. cbn [fst].
    now rewrite map_id.
  - intros m s H.
    apply (Permutation_in _ (participation_perm df)) in H.
    apply in_map_iff in H. destruct H as (m' & E & _).
    pose proof (f_equal fst E) as E1. pose proof (f_equal snd E) as E2.
    cbn [fst snd] in E1, E2. subst m' s. apply Qred_correct.
  - apply participation_std_Surd.
  - apply participation_std_NaN.
  - intros m Hdf Hall.
    pose proof (single_sender_distinct df m Hdf Hall) as E.
    split; [now rewrite E |].
    apply participation_std_NaN. rewrite E. cbn. lia.
Qed.

Example participation_gap_week :
  participation gap_week = [("ann", 3 # 4); ("bob", 1 # 4)]
  /\ participation_std gap_week = Surd 0 1 (1 # 8)
  /\ participation_std single_sender = SNaN.
Proof. repeat split. Qed.

(** ** Defined and undefined fields *)

Lemma daily_activity_nonempty (df : DataFrame) :
  df <> [] -> daily_activity df <> [].
Proof.
  destruct df as [| r df]; [congruence |]. intros _.
  unfold daily_activity, resample_D_size. cbn [map].
  set (t := date r). set (ts := map date df).
  assert (H1 : (Zmin_list t ts <= t)%Z) by (apply Zmin_list_le; now left).
  assert (H2 : (t <= Zmax_list t ts)%Z) by (apply Zmax_list_ge; now left).
  apply day_of_mono in H1, H2.
  intros E. apply (f_equal (@List.length Z)) in E.
  rewrite length_map, day_range_length in E. cbn in E. lia.
Qed.

Lemma avg_daily_messages_Fin (df : DataFrame) :
  df <> [] -> exists q, avg_daily_messages df = Fin q.
Proof.
  intros Hdf. unfold avg_daily_messages.
  destruct (mean_Fin (map inject_Z (daily_activity df))) as (m & Em).
  - pose proof (daily_activity_nonempty df Hdf) as H.
    destruct (daily_activity df); [congruence | discriminate].
  - rewrite Em. apply round_Fin.
Qed.

Lemma balance_value_NaN (p : sfloat) :
  sround (smul (ssub (Fin 1) p) (Fin 100)) 1 = NaN <-> p = SNaN.
Proof.
  destruct p as [| a b v]; cbn [ssub smul sround]; split;
    intros H; try reflexivity; discriminate.
Qed.

Lemma no_uneven_warning (a s : float) (p : sfloat) :
  sgtb p (Fin 0.3) = false ->
  ~ In uneven_participation_warning (generate_recommendations a s p).
Proof.
  intros E. unfold generate_recommendations. rewrite E.
  destruct (fltb a (Fin 5)), (fltb s (Fin 0.1)); cbn [app In];
    intuition discriminate.
Qed.

(** C2 (as the code has it): for every non-empty cleaned dataset,
    [total_score], the three scores and the values of the communication and
    sentiment metrics are numbers, never NaN; the value of the balance
    metric is NaN exactly when the dataset has a single distinct sender (no
    fallback replaces it), and a number otherwise. *)
Theorem numeric_fields_defined (polarity : string -> result Q)
    (today : string) (df : DataFrame) :
  df <> [] ->
  exists r t c s b vc vs,
    analyze_team_communication polarity today df = Ok r
    /\ total_score r = Fin t
    /\ score (communication (metrics r)) = Fin c
    /\ score (sentiment (metrics r)) = Fin s
    /\ score (balance (metrics r)) = Fin b
    /\ value (communication (metrics r)) = Fin vc
    /\ value (sentiment (metrics r)) = Fin vs
    /\ (value (balance (metrics r)) = NaN
        <-> List.length (distinct_senders df) = 1%nat)
    /\ ((2 <= List.length (distinct_senders df))%nat ->
        exists vb, value (balance (metrics r)) = Fin vb).
Proof.
  intros Hdf.
  destruct (total_score_range polarity today df) as (r & t & Hr & _ & Et & _).
  destruct (scores_range polarity today df)
    as (r1 & c & s & b & Hr1 & Ec & _ & Es & _ & Eb & _).
  destruct (avg_sentiment_Fin polarity today df Hdf) as (r2 & vs & Hr2 & Evs & _).
  destruct (analyze_returns polarity today df)
    as (r3 & Hr3 & Hvc & _ & Hvb & _).
  assert (r1 = r) by congruence. assert (r2 = r) by congruence.
  assert (r3 = r) by congruence. subst r1 r2 r3.
  destruct (avg_daily_messages_Fin df Hdf) as (vc & Evc).
  pose proof (distinct_senders_nonempty df Hdf) as Hn.
  exists r, t, c, s, b, vc, vs.
  repeat (split; [first [assumption | congruence] |]).
  split; [split |].
  - intros H. rewrite Hvb in H. apply balance_value_NaN in H.
    destruct (Nat.le_gt_cases 2 (List.length (distinct_senders df)))
      as [H2 | H2]; [| lia].
    destruct (participation_std_Surd df H2) as (v & Ev & _). congruence.
  - intros H. rewrite Hvb. apply balance_value_NaN.
    apply participation_std_NaN. lia.
  - intros H2. destruct (participation_std_Surd df H2) as (v & Ev & _).
    rewrite Hvb, Ev. eexists. reflexivity.
Qed.

Lemma numeric_fields_defined_witness :
  gap_week <> []
  /\ exists r t c s b vc vs,
       analyze_team_communication sample_polarity "2024-05-01" gap_week = Ok r
       /\ total_score r = Fin t
       /\ score (communication (metrics r)) = Fin c
       /\ score (sentiment (metrics r)) = Fin s
       /\ score (balance (metrics r)) = Fin b
       /\ value (communication (metrics r)) = Fin vc
       /\ value (sentiment (metrics r)) = Fin vs
       /\ (value (balance (metrics r)) = NaN
           <-> List.length (distinct_senders gap_week) = 1%nat)
       /\ ((2 <= List.length (distinct_senders gap_week))%nat ->
           exists vb, value (balance (metrics r)) = Fin vb).
Proof.
  split; [discriminate |].
  apply (numeric_fields_defined sample_polarity "2024-05-01" gap_week).
  discriminate.
Defined.

(** C2, the claim as stated fails: when one member sends every message the
    value of the balance metric in the report is NaN. *)
Lemma balance_value_is_NaN_for_single_sender :
  exists r,
    analyze_team_communication sample_polarity "2024-05-01" single_sender = Ok r
    /\ value (balance (metrics r)) = NaN
    /\ label (balance (metrics r)) = "nan% баланса".
Proof.
  eexists. split; [vm_compute; reflexivity |]. split; reflexivity.
Qed.

(** ** One member sends every message *)

(** C3 (as the code has it): for every non-empty cleaned dataset in which a
    single member sends all of the messages, [participation_std] is NaN, so
    rule #3 does not fire and the recommendation list does not contain the
    uneven-participation warning; [balance_score] is [0], below the
    perfectly-even value of [100]. *)
Theorem single_sender_report (polarity : string -> result Q) (today : string)
    (df : DataFrame) (m : string) :
  df <> [] -> (forall r, In r df -> member r = m) ->
  exists r,
    analyze_team_communication polarity today df = Ok r
    /\ participation_std df = SNaN
    /\ ~ In uneven_participation_warning (recommendations r)
    /\ score (balance (metrics r)) = Fin 0
    /\ fltb (score (balance (metrics r))) (Fin 100) = true.
Proof.
  intros Hdf Hall.
  assert (Hstd : participation_std df = SNaN).
  { apply participation_std_NaN.
    rewrite (single_sender_distinct df m Hdf Hall). cbn. lia. }
  destruct (analyze_returns polarity today df)
    as (r & Hr & _ & _ & Hvb & _ & _ & Hsb & _ & _ & Hrec).
  exists r. split; [exact Hr |]. split; [exact Hstd |].
  assert (Hb : score (balance (metrics r)) = Fin 0).
  { rewrite Hsb, Hvb, Hstd. reflexivity. }
  split; [| split; [exact Hb | now rewrite Hb]].
  rewrite Hrec. apply no_uneven_warning. now rewrite Hstd.
Qed.

Lemma single_sender_report_witness :
  exists r,
    analyze_team_communication sample_polarity "2024-05-01" single_sender = Ok r
    /\ participation_std single_sender = SNaN
    /\ ~ In uneven_participation_warning (recommendations r)
    /\ score (balance (metrics r)) = Fin 0
    /\ fltb (score (balance (metrics r))) (Fin 100) = true.
Proof.
  apply (single_sender_report sample_polarity "2024-05-01" single_sender "ann").
  - discriminate.
  - intros r [<- | [<- | [<- | []]]]; reflexivity.
Defined.

(** C3, the claim as stated fails: one member sends every message and the
    recommendation list has no uneven-participation warning. *)
Lemma single_sender_gets_no_warning :
  exists r,
    analyze_team_communication sample_polarity "2024-05-01" single_sender = Ok r
    /\ (forall row, In row single_sender -> member row = "ann")
    /\ recommendations r = [low_frequency_warning]
    /\ ~ In uneven_participation_warning (recommendations r).
Proof.
  eexists. split; [vm_compute; reflexivity |].
  split.
  - intros row [<- | [<- | [<- | []]]]; reflexivity.
  - cbn [recommendations]. split; [reflexivity |].
    intros [H | []]. discriminate.
Qed.


(** * Further properties of the pipeline *)

(** ** When each rule fires *)

Lemma low_frequency_iff (a s : float) (p : sfloat) :
  In low_frequency_warning (generate_recommendations a s p)
  <-> fltb a (Fin 5) = true.
Proof.
  unfold generate_recommendations.
  destruct (fltb a (Fin 5)), (fltb s (Fin 0.1)), (sgtb p (Fin 0.3));
    cbn [app In]; intuition discriminate.
Qed.

Lemma tone_iff (a s : float) (p : sfloat) :
  In tone_warning (generate_recommendations a s p)
  <-> fltb s (Fin 0.1) = true.
Proof.
  unfold generate_recommendations.
  destruct (fltb a (Fin 5)), (fltb s (Fin 0.1)), (sgtb p (Fin 0.3));
    cbn [app In]; intuition discriminate.
Qed.

Lemma uneven_iff (a s : float) (p : sfloat) :
  In uneven_participation_warning (generate_recommendations a s p)
  <-> sgtb p (Fin 0.3) = true.
Proof.
  unfold generate_recommendations.
  destruct (fltb a (Fin 5)), (fltb s (Fin 0.1)), (sgtb p (Fin 0.3));
    cbn [app In]; intuition discriminate.
Qed.

(** ** Clamps that never act *)

(** A number of [0, 100] passes [min(100, max(0, x))] unchanged. *)
Lemma clamp_inactive (y : Q) :
  0 <= y <= 100 -> py_min (Fin 100) (py_max (Fin 0) (fin y)) = fin y.
Proof.
  intros [H0 H1]. unfold fin, py_max, fgtb.
  destruct (fltb (Fin 0) (Fin (Qred y))) eqn:E0.
  - unfold py_min. destruct (fltb (Fin (Qred y)) (Fin 100)) eqn:E1;
      [reflexivity |].
    apply fltb_Fin_false in E1. rewrite Qred_correct in E1.
    f_equal. change 100 with (Qred 100). apply Qred_complete. lra.
  - apply fltb_Fin_false in E0. rewrite Qred_correct in E0.
    assert (E : Qred y = 0).
    { change 0 with (Qred 0). apply Qred_complete. lra. }
    rewrite E. reflexivity.
Qed.

Lemma Qsum_bounds (lo hi : Q) (l : list Q) :
  (forall x, In x l -> lo <= x <= hi) ->
  Qlen l * lo <= Qsum l <= Qlen l * hi.
Proof.
  unfold Qlen. induction l as [| x l IH]; intros H.
  - change (0 * lo <= 0 <= 0 * hi). lra.
  - rewrite Qsum_cons. cbn [List.length].
    rewrite Nat2Z.inj_succ, <- Z.add_1_r, inject_Z_plus.
    destruct (H x (or_introl eq_refl)) as [Hx1 Hx2].
    destruct IH as [I1 I2]; [intros y Hy; apply H; now right |].
    change (inject_Z 1) with 1.
    set (n := inject_Z (Z.of_nat (List.length l))) in *.
    split; lra.
Qed.

(** ** A capability that always fails *)

Lemma mean_zero (l : list Q) :
  l <> [] -> (forall x, In x l -> x = 0) -> mean l = Fin 0.
Proof.
  intros Hl H.
  destruct (Qsum_bounds 0 0 l) as [H1 H2].
  { intros x Hx. rewrite (H x Hx). lra. }
  destruct l as [| x l']; [congruence |].
  change (Fin 0) with (fin 0). apply fin_eq.
  set (l := x :: l') in *.
  assert (E : Qsum l == 0) by lra.
  rewrite E. unfold Qdiv. ring.
Qed.

(** X2: when the capability raises on every record, the run still returns
    a report: [avg_sentiment] is [0], [sentiment_score] is [50], the label
    is "Нейтральный" (Neutral) and the tone warning is among the
    recommendations. *)
Theorem all_failures_read_neutral (polarity : string -> result Q)
    (today : string) (df : DataFrame) :
  df <> [] ->
  (forall rec, In rec df -> exists e, polarity (message rec) = Raise e) ->
  exists r,
    analyze_team_communication polarity today df = Ok r
    /\ value (sentiment (metrics r)) = Fin 0
    /\ score (sentiment (metrics r)) = Fin 50
    /\ label (sentiment (metrics r)) = "Нейтральный"
    /\ In tone_warning (recommendations r).
Proof.
  intros Hdf Hfail.
  destruct (analyze_returns polarity today df)
    as (r & Hr & _ & Hv & _ & _ & Hs & _ & _ & Hl & Hrec).
  assert (Hm : mean (map (polarity_or_zero polarity) (map message df)) = Fin 0).
  { apply mean_zero.
    - destruct df; [congruence | discriminate].
    - intros x Hx. rewrite map_map in Hx. apply in_map_iff in Hx.
      destruct Hx as (rec & <- & Hin).
      destruct (Hfail rec Hin) as (e & He).
      unfold polarity_or_zero. now rewrite He. }
  assert (Hq : value (sentiment (metrics r)) = Fin 0) by now rewrite Hv, Hm.
  exists r. split; [exact Hr |]. split; [exact Hq |].
  split; [now rewrite Hs, Hq |].
  split; [now rewrite Hl, Hq |].
  rewrite Hrec, Hq. apply tone_iff. reflexivity.
Qed.

Lemma all_failures_read_neutral_witness :
  exists r,
    analyze_team_communication broken_polarity "2024-05-01" gap_week = Ok r
    /\ value (sentiment (metrics r)) = Fin 0
    /\ score (sentiment (metrics r)) = Fin 50
    /\ label (sentiment (metrics r)) = "Нейтральный"
    /\ In tone_warning (recommendations r).
Proof.
  apply (all_failures_read_neutral broken_polarity "2024-05-01" gap_week).
  - discriminate.
  - intros rec _. exists "LookupError". reflexivity.
Defined.

(** ** Label and tone warning *)

(** X3: the sentiment label and the tone warning agree at the extremes: a
    report labelled "Негативный" (Negative) always carries the tone
    warning, a report labelled "Позитивный" (Positive) never does. *)
Theorem label_and_tone_warning (polarity : string -> result Q)
    (today : string) (df : DataFrame) :
  df <> [] ->
  exists r,
    analyze_team_communication polarity today df = Ok r
    /\ (label (sentiment (metrics r)) = "Негативный" ->
        In tone_warning (recommendations r))
    /\ (label (sentiment (metrics r)) = "Позитивный" ->
        ~ In tone_warning (recommendations r)).
Proof.
  intros Hdf.
  destruct (avg_sentiment_Fin polarity today df Hdf) as (r & q & Hr & Hv & Hl).
  destruct (analyze_returns polarity today df)
    as (r' & Hr' & _ & _ & _ & _ & _ & _ & _ & _ & Hrec).
  assert (r' = r) by congruence. subst r'.
  destruct (sentiment_label_Fin q) as (Hpos & _ & Hneg).
  exists r. split; [exact Hr |].
  rewrite Hrec, Hv, Hl, tone_iff. split.
  - intros H. apply Hneg in H. apply fltb_Fin. lra.
  - intros H. apply Hpos in H. intros C. apply fltb_Fin in C. lra.
Qed.

Lemma label_and_tone_warning_witness :
  exists r,
    analyze_team_communication sample_polarity "2024-05-01" two_members = Ok r
    /\ (label (sentiment (metrics r)) = "Негативный" ->
        In tone_warning (recommendations r))
    /\ (label (sentiment (metrics r)) = "Позитивный" ->
        ~ In tone_warning (recommendations r)).
Proof.
  apply (label_and_tone_warning sample_polarity "2024-05-01" two_members).
  discriminate.
Defined.

(** ** Activity: what the rounded mean decides *)

Lemma rint_comp (p q : Q) : p == q -> rint p = rint q.
Proof.
  intros E. unfold rint. rewrite (Qfloor_comp p q E).
  assert (Ec : Qcompare (p - inject_Z (Qfloor q)) (1 # 2)
               = Qcompare (q - inject_Z (Qfloor q)) (1 # 2)).
  { apply Qcompare_comp; [now rewrite E | reflexivity]. }
  now rewrite Ec.
Qed.

Lemma rint_inject_Z (k : Z) : rint (inject_Z k) = k.
Proof.
  unfold rint. rewrite Qfloor_Z.
  destruct (Qcompare_spec (inject_Z k - inject_Z k) (1 # 2)) as [E | E | E].
  - exfalso. lra.
  - reflexivity.
  - exfalso. lra.
Qed.

Lemma rint_lower (lo : Z) (q : Q) : inject_Z lo <= q -> (lo <= rint q)%Z.
Proof.
  intros H.
  apply (rint_bounds lo (Qfloor q + 1) q). split; [exact H |].
  apply Qlt_le_weak, Qlt_floor.
Qed.

(** Half to even at the threshold of rule #1: [49.5] goes up to [50]. *)
Lemma rint_lt_50 (x : Q) : (rint x < 50)%Z <-> x < 99 # 2.
Proof.
  pose proof (Qfloor_le x) as Hf1. pose proof (Qlt_floor x) as Hf2.
  rewrite inject_Z_plus in Hf2. change (inject_Z 1) with 1 in Hf2.
  unfold rint.
  remember (Qfloor x) as f eqn:Ef. remember (inject_Z f) as fq eqn:Efq.
  assert (Hlt : forall k : Z, fq < inject_Z k -> (f < k)%Z).
  { intros k Hk. rewrite Zlt_Qlt. now rewrite <- Efq. }
  assert (Hq : forall k : Z, (f <= k)%Z -> fq <= inject_Z k).
  { intros k Hk. rewrite Efq. now rewrite <- Zle_Qle. }
  clear Ef Efq.
  destruct (Qcompare_spec (x - fq) (1 # 2)) as [E | E | E].
  - split.
    + intros H. destruct (Z.even f) eqn:Ev.
      * assert (Hk : (f <= 48)%Z).
        { destruct (Z.eq_dec f 49) as [-> | Hne]; [discriminate | lia]. }
        apply Hq in Hk. change (inject_Z 48) with 48 in Hk. lra.
      * assert (Hk : (f <= 48)%Z) by lia.
        apply Hq in Hk. change (inject_Z 48) with 48 in Hk. lra.
    + intros H. assert (Hk : (f < 49)%Z).
      { apply Hlt. change (inject_Z 49) with 49. lra. }
      destruct (Z.even f); lia.
  - split.
    + intros H. assert (Hk : (f <= 49)%Z) by lia.
      apply Hq in Hk. change (inject_Z 49) with 49 in Hk. lra.
    + intros H. assert (Hk : (f < 50)%Z).
      { apply Hlt. change (inject_Z 50) with 50. lra. }
      exact Hk.
  - split.
    + intros H. assert (Hk : (f <= 48)%Z) by lia.
      apply Hq in Hk. change (inject_Z 48) with 48 in Hk. lra.
    + intros H. assert (Hk : (f < 49)%Z).
      { apply Hlt. change (inject_Z 49) with 49. lra. }
      lia.
Qed.

Lemma date_extremes (df : DataFrame) :
  df <> [] ->
  exists tmin tmax,
    In tmin (map date df) /\ In tmax (map date df)
    /\ forall r, In r df -> (tmin <= date r <= tmax)%Z.
Proof.
  destruct df as [| r0 df]; [congruence |]. intros _.
  exists (Zmin_list (date r0) (map date df)), (Zmax_list (date r0) (map date df)).
  split; [apply Zmin_list_In |]. split; [apply Zmax_list_In |].
  intros r Hr. split.
  - apply Zmin_list_le. change (In (date r) (map date (r0 :: df))).
    now apply in_map.
  - apply Zmax_list_ge. change (In (date r) (map date (r0 :: df))).
    now apply in_map.
Qed.

(** The mean of the daily series: rows over calendar days. *)
Lemma avg_daily_messages_ratio (df : DataFrame) (tmin tmax : Z) :
  df <> [] ->
  In tmin (map date df) -> In tmax (map date df) ->
  (forall r, In r df -> (tmin <= date r <= tmax)%Z) ->
  (0 < day_of tmax - day_of tmin + 1)%Z
  /\ avg_daily_messages df
     = round (fin (inject_Z (Z.of_nat (List.length df))
                   / inject_Z (day_of tmax - day_of tmin + 1))) 1.
Proof.
  intros Hdf Hmin Hmax Hall.
  pose proof (daily_activity_unfold df tmin tmax Hdf Hmin Hmax Hall) as Hda.
  set (first := day_of tmin) in *. set (last := day_of tmax) in *.
  assert (Hord : (first <= last)%Z).
  { apply day_of_mono. apply in_map_iff in Hmax.
    destruct Hmax as (r & <- & Hr). apply (Hall r Hr). }
  split; [lia |].
  assert (Hlen : List.length (daily_activity df) = Z.to_nat (last - first + 1)).
  { rewrite Hda, length_map. apply day_range_length. }
  assert (Hsum : Zsum (daily_activity df) = Z.of_nat (List.length df)).
  { rewrite Hda.
    rewrite (Zsum_map_ext _ (count_day (map day_of (map date df))));
      [| intros; symmetry; apply count_day_messages_on].
    rewrite count_day_total; [now rewrite !length_map |].
    intros d Hd. apply in_map_iff in Hd. destruct Hd as (t & <- & Ht).
    apply in_map_iff in Ht. destruct Ht as (r & <- & Hr).
    destruct (Hall r Hr) as [H1 H2].
    apply day_of_mono in H1, H2. fold first in H1. fold last in H2. lia. }
  unfold avg_daily_messages. rewrite mean_inject_Z.
  - rewrite Hlen, Hsum. rewrite Z2Nat.id by lia. reflexivity.
  - intros E. rewrite E in Hlen. cbn in Hlen. lia.
Qed.

Lemma round1_Fin_ratio (q : Q) :
  round (Fin q) 1 = fin (inject_Z (rint (q * 10)) / 10).
Proof. reflexivity. Qed.

(** X4: rule #1 looks at the rounded mean, so the low-frequency warning is
    issued exactly when the number of messages [N] and the number [D] of
    calendar days from the first to the last message satisfy
    [20 * N < 99 * D], that is when the exact mean is below [4.95]. *)
Theorem low_frequency_warning_threshold (polarity : string -> result Q)
    (today : string) (df : DataFrame) (tmin tmax : Z) :
  df <> [] ->
  In tmin (map date df) -> In tmax (map date df) ->
  (forall r, In r df -> (tmin <= date r <= tmax)%Z) ->
  exists r,
    analyze_team_communication polarity today df = Ok r
    /\ (In low_frequency_warning (recommendations r)
        <-> (20 * Z.of_nat (List.length df)
             < 99 * (day_of tmax - day_of tmin + 1))%Z).
Proof.
  intros Hdf Hmin Hmax Hall.
  destruct (avg_daily_messages_ratio df tmin tmax Hdf Hmin Hmax Hall)
    as (Hpos & Havg).
  destruct (analyze_returns polarity today df)
    as (r & Hr & _ & _ & _ & _ & _ & _ & _ & _ & Hrec).
  exists r. split; [exact Hr |].
  rewrite Hrec, low_frequency_iff, Havg.
  set (N := Z.of_nat (List.length df)) in *.
  set (D := (day_of tmax - day_of tmin + 1)%Z) in *.
  unfold fin. rewrite round1_Fin_ratio. unfold fin.
  rewrite fltb_Fin, Qred_correct.
  rewrite (rint_comp _ (inject_Z N / inject_Z D * 10))
    by now rewrite Qred_correct.
  assert (HD : 0 < inject_Z D).
  { change 0 with (inject_Z 0). now rewrite <- Zlt_Qlt. }
  assert (E1 : inject_Z (rint (inject_Z N / inject_Z D * 10)) / 10 < 5
               <-> (rint (inject_Z N / inject_Z D * 10) < 50)%Z).
  { rewrite Zlt_Qlt. change (inject_Z 50) with 50.
    generalize (inject_Z (rint (inject_Z N / inject_Z D * 10))). intros k.
    assert (Ek : k / 10 == k * (1 # 10)) by field.
    rewrite Ek. split; intros H; lra. }
  rewrite E1, rint_lt_50.
  rewrite Zlt_Qlt, !inject_Z_mult.
  change (inject_Z 20) with 20. change (inject_Z 99) with 99.
  revert HD. clear. generalize (inject_Z N) (inject_Z D). intros n d HD.
  split; intros H.
  - assert (Hn : n == n / d * d) by (field; lra).
    rewrite Hn. set (t := n / d) in *. nra.
  - assert (H' : n / d < 99 # 20) by (apply Qlt_shift_div_r; lra).
    lra.
Qed.

Lemma low_frequency_warning_threshold_witness :
  exists r,
    analyze_team_communication sample_polarity "2024-05-01" gap_week = Ok r
    /\ (In low_frequency_warning (recommendations r)
        <-> (20 * 4 < 99 * 4)%Z).
Proof.
  apply (low_frequency_warning_threshold sample_polarity "2024-05-01"
           gap_week (day 10) (day 13 + 7)).
  - discriminate.
  - cbn. tauto.
  - cbn. tauto.
  - intros r [<- | [<- | [<- | [<- | []]]]]; cbn; lia.
Defined.

Lemma Qred_inject_Z (z : Z) : Qred (inject_Z z) = inject_Z z.
Proof. apply Qcanon.Qred_identity. cbn. apply Z.gcd_1_r. Qed.

Lemma communication_score_shape (q : Q) :
  0 <= q ->
  py_min (Fin 100) (py_max (Fin 0) (fmul (Fin q) (Fin 2)))
  = if Qle_bool 50 q then Fin 100 else fin (q * 2).
Proof.
  intros Hq. cbn [fmul].
  destruct (Qle_bool 50 q) eqn:E.
  - apply Qle_bool_iff in E.
    unfold fin, py_max, fgtb.
    assert (E0 : fltb (Fin 0) (Fin (Qred (q * 2))) = true).
    { apply fltb_Fin. rewrite Qred_correct. lra. }
    rewrite E0. unfold py_min.
    assert (E1 : fltb (Fin (Qred (q * 2))) (Fin 100) = false).
    { apply fltb_Fin_false. rewrite Qred_correct. lra. }
    now rewrite E1.
  - apply clamp_inactive.
    assert (H : ~ 50 <= q).
    { intros C. apply Qle_bool_iff in C. congruence. }
    lra.
Qed.

Lemma avg_daily_messages_nonneg (df : DataFrame) :
  df <> [] -> exists q, avg_daily_messages df = Fin q /\ 0 <= q.
Proof.
  intros Hdf.
  destruct (date_extremes df Hdf) as (tmin & tmax & Hmin & Hmax & Hall).
  destruct (avg_daily_messages_ratio df tmin tmax Hdf Hmin Hmax Hall)
    as (Hpos & Havg).
  rewrite Havg. eexists. split; [reflexivity |].
  rewrite Qred_correct. change (pow10 1) with 10.
  assert (HD : 0 < inject_Z (day_of tmax - day_of tmin + 1)).
  { change 0 with (inject_Z 0). now rewrite <- Zlt_Qlt. }
  assert (HN : 0 <= inject_Z (Z.of_nat (List.length df))).
  { change 0 with (inject_Z 0). rewrite <- Zle_Qle. lia. }
  assert (Hk : (0 <= rint (Qred (inject_Z (Z.of_nat (List.length df))
                                / inject_Z (day_of tmax - day_of tmin + 1))
                          * 10))%Z).
  { apply rint_lower. rewrite Qred_correct. change (inject_Z 0) with 0.
    revert HD HN. generalize (inject_Z (Z.of_nat (List.length df)))
                             (inject_Z (day_of tmax - day_of tmin + 1)).
    intros n d HD HN.
    assert (0 <= n / d) by (apply Qle_shift_div_l; lra). lra. }
  rewrite Zle_Qle in Hk. change (inject_Z 0) with 0 in Hk.
  revert Hk. generalize (inject_Z (rint (Qred (inject_Z (Z.of_nat (List.length df))
                                / inject_Z (day_of tmax - day_of tmin + 1))
                          * 10))).
  intros k Hk. apply Qle_shift_div_l; lra.
Qed.

(** X5: [avg_daily_messages] is never negative, so the lower clamp of line
    41 never acts: [communication_score] is twice [avg_daily_messages]
    below 50 messages a day and [100] from 50 messages a day on. *)
Theorem communication_score_saturates (polarity : string -> result Q)
    (today : string) (df : DataFrame) :
  df <> [] ->
  exists r q,
    analyze_team_communication polarity today df = Ok r
    /\ value (communication (metrics r)) = Fin q
    /\ 0 <= q
    /\ (q < 50 -> score (communication (metrics r)) = fin (q * 2))
    /\ (50 <= q -> score (communication (metrics r)) = Fin 100).
Proof.
  intros Hdf.
  destruct (avg_daily_messages_nonneg df Hdf) as (q & Eq & Hq).
  destruct (analyze_returns polarity today df)
    as (r & Hr & Hv & _ & _ & Hs & _).
  exists r, q. split; [exact Hr |]. split; [now rewrite Hv |].
  split; [exact Hq |].
  rewrite Hs, Eq, (communication_score_shape q Hq).
  split; intros H.
  - destruct (Qle_bool 50 q) eqn:E; [| reflexivity].
    apply Qle_bool_iff in E. lra.
  - apply Qle_bool_iff in H. now rewrite H.
Qed.

Lemma communication_score_saturates_witness :
  exists r q,
    analyze_team_communication sample_polarity "2024-05-01" flood = Ok r
    /\ value (communication (metrics r)) = Fin q
    /\ 0 <= q
    /\ (q < 50 -> score (communication (metrics r)) = fin (q * 2))
    /\ (50 <= q -> score (communication (metrics r)) = Fin 100).
Proof.
  apply (communication_score_saturates sample_polarity "2024-05-01" flood).
  discriminate.
Defined.

(** X6: when every message falls on one calendar day, the daily series has
    that single day and [avg_daily_messages] is exactly the number of
    messages. *)
Theorem single_day_average (df : DataFrame) (d : Z) :
  df <> [] ->
  (forall r, In r df -> day_of (date r) = d) ->
  daily_activity df = [Z.of_nat (List.length df)]
  /\ avg_daily_messages df = Fin (inject_Z (Z.of_nat (List.length df))).
Proof.
  intros Hdf Hday.
  destruct (date_extremes df Hdf) as (tmin & tmax & Hmin & Hmax & Hall).
  assert (Emin : day_of tmin = d).
  { apply in_map_iff in Hmin. destruct Hmin as (r & <- & Hr). now apply Hday. }
  assert (Emax : day_of tmax = d).
  { apply in_map_iff in Hmax. destruct Hmax as (r & <- & Hr). now apply Hday. }
  destruct (avg_daily_messages_ratio df tmin tmax Hdf Hmin Hmax Hall)
    as (_ & Havg).
  pose proof (daily_activity_unfold df tmin tmax Hdf Hmin Hmax Hall) as Hda.
  rewrite Emin, Emax in Havg, Hda.
  replace (d - d + 1)%Z with 1%Z in Havg, Hda by lia.
  split.
  - rewrite Hda. change (Z.to_nat 1) with 1%nat.
    cbn [day_range seq map]. rewrite Z.add_0_r. f_equal.
    unfold messages_on. do 2 f_equal.
    clear - Hday. induction df as [| r df IH]; [reflexivity |].
    cbn. rewrite (Hday r (or_introl eq_refl)), Z.eqb_refl. f_equal.
    apply IH. intros x Hx. apply Hday. now right.
  - rewrite Havg. set (N := Z.of_nat (List.length df)).
    unfold fin. rewrite round1_Fin_ratio.
    rewrite (rint_comp _ (inject_Z (N * 10))).
    + rewrite rint_inject_Z. rewrite <- (Qred_inject_Z N).
      apply fin_eq. rewrite inject_Z_mult. change (inject_Z 10) with 10.
      field.
    + rewrite Qred_correct, inject_Z_mult. change (inject_Z 10) with 10.
      change (inject_Z 1) with 1. field.
Qed.

Lemma single_day_average_witness :
  daily_activity flood = [10000%Z]
  /\ avg_daily_messages flood = Fin 10000.
Proof.
  destruct (single_day_average flood 3) as [H1 H2].
  - discriminate.
  - intros r Hr. apply repeat_spec in Hr. now subst r.
  - split.
    + rewrite H1. reflexivity.
    + rewrite H2. reflexivity.
Defined.

(** ** Participation: what the deviation decides *)

Lemma std_canonical (l : list Q) (a b v : Q) :
  std l = Surd a b v -> Qred v = v.
Proof.
  unfold std, sqrt. destruct (var l) as [| x]; [discriminate |].
  destruct (Qle_bool 0 x); [| discriminate].
  intros [= _ _ <-]. apply Qcanon.Qred_involutive.
Qed.

Lemma Qsum_const {A} (f : A -> Q) (c : Q) (l : list A) :
  (forall x, In x l -> f x == c) -> Qsum (map f l) == Qlen l * c.
Proof.
  intros H.
  destruct (Qsum_bounds c c (map f l)) as [H1 H2].
  { intros y Hy. apply in_map_iff in Hy. destruct Hy as (x & <- & Hx).
    rewrite (H x Hx). lra. }
  unfold Qlen in *. rewrite length_map in H1, H2. lra.
Qed.

Lemma sample_variance_even {A} (f : A -> Q) (c : Q) (l : list A) :
  (2 <= List.length l)%nat ->
  (forall x, In x l -> f x == c) -> sample_variance f l == 0.
Proof.
  intros Hn H. unfold sample_variance. cbv zeta.
  assert (Hpos : 2 <= inject_Z (Z.of_nat (List.length l))).
  { change 2 with (inject_Z 2). rewrite <- Zle_Qle. lia. }
  pose proof (Qsum_const f c l H) as Hs. unfold Qlen in Hs.
  set (n := inject_Z (Z.of_nat (List.length l))) in *.
  assert (Hbar : Qsum (map f l) / n == c).
  { rewrite Hs. field. lra. }
  assert (Hdev : Qsum (map (fun x => (f x - Qsum (map f l) / n)
                                     * (f x - Qsum (map f l) / n)) l) == 0).
  { rewrite (Qsum_const _ 0).
    - ring.
    - intros x Hx. rewrite Hbar, (H x Hx). ring. }
  rewrite Hdev. field. lra.
Qed.

(** X8: when at least two members took part and all of them sent the same
    number of messages, [participation_balance] and [balance_score] are
    [100] and there is no uneven-participation warning. *)
Theorem even_participation (polarity : string -> result Q) (today : string)
    (df : DataFrame) :
  (2 <= List.length (distinct_senders df))%nat ->
  (forall m m', In m (distinct_senders df) -> In m' (distinct_senders df) ->
     count_occ string_dec (map member df) m
     = count_occ string_dec (map member df) m') ->
  exists r,
    analyze_team_communication polarity today df = Ok r
    /\ value (balance (metrics r)) = Fin 100
    /\ score (balance (metrics r)) = Fin 100
    /\ ~ In uneven_participation_warning (recommendations r).
Proof.
  intros Hn Heven.
  destruct (participation_std_Surd df Hn) as (v & Ev & Hv & _).
  assert (Hsv : sample_variance (share df) (distinct_senders df) == 0).
  { destruct (distinct_senders df) as [| m0 ms] eqn:E; [cbn in Hn; lia |].
    apply (sample_variance_even _ (share df m0)); [exact Hn |].
    intros m Hm. unfold share.
    rewrite (Heven m m0 Hm (or_introl eq_refl)). reflexivity. }
  assert (E0 : v = 0).
  { rewrite <- (std_canonical _ _ _ _ Ev). change 0 with (Qred 0).
    apply Qred_complete. now rewrite Hv. }
  subst v.
  destruct (analyze_returns polarity today df)
    as (r & Hr & _ & _ & Hvb & _ & _ & Hsb & _ & _ & Hrec).
  exists r. split; [exact Hr |].
  assert (Hb : value (balance (metrics r)) = Fin 100) by now rewrite Hvb, Ev.
  split; [exact Hb |]. split; [now rewrite Hsb, Hb |].
  rewrite Hrec, uneven_iff, Ev. discriminate.
Qed.

Lemma even_participation_witness :
  exists r,
    analyze_team_communication sample_polarity "2024-05-01" two_members = Ok r
    /\ value (balance (metrics r)) = Fin 100
    /\ score (balance (metrics r)) = Fin 100
    /\ ~ In uneven_participation_warning (recommendations r).
Proof.
  apply (even_participation sample_polarity "2024-05-01" two_members).
  - cbn. lia.
  - intros m m' [<- | [<- | []]] [<- | [<- | []]]; reflexivity.
Defined.

(** ** Participation: the range of the balance *)

Lemma Qsum_map_le {A} (f g : A -> Q) (l : list A) :
  (forall x, In x l -> f x <= g x) -> Qsum (map f l) <= Qsum (map g l).
Proof.
  induction l as [| x l IH]; intros H; cbn [map]; [apply Qle_refl |].
  rewrite !Qsum_cons.
  pose proof (H x (or_introl eq_refl)) as Hx.
  assert (Hl : Qsum (map f l) <= Qsum (map g l)).
  { apply IH. intros y Hy. apply H. now right. }
  lra.
Qed.

Lemma Qsum_map_div {A} (c : A -> Z) (t : Q) (l : list A) :
  Qsum (map (fun x => inject_Z (c x) / t) l) == inject_Z (Zsum (map c l)) / t.
Proof.
  induction l as [| x l IH]; cbn [map].
  - unfold Qdiv. change (Qsum []) with 0. change (inject_Z (Zsum [])) with 0.
    ring.
  - rewrite Qsum_cons, IH. unfold Zsum. cbn [fold_right].
    rewrite inject_Z_plus. unfold Qdiv. ring.
Qed.

Lemma Qsum_sq_dev {A} (f : A -> Q) (c : Q) (l : list A) :
  Qsum (map (fun x => (f x - c) * (f x - c)) l)
  == Qsum (map (fun x => f x * f x) l) - 2 * c * Qsum (map f l)
     + Qlen l * c * c.
Proof.
  unfold Qlen. induction l as [| x l IH]; cbn [map].
  - change (Qsum []) with 0. change (inject_Z (Z.of_nat (List.length (@nil A)))) with 0.
    ring.
  - rewrite !Qsum_cons, IH. cbn [List.length].
    rewrite Nat2Z.inj_succ, <- Z.add_1_r, inject_Z_plus.
    change (inject_Z 1) with 1. ring.
Qed.

(** The shares of the distinct senders add up to one. *)
Lemma shares_total (df : DataFrame) :
  df <> [] -> Qsum (map (share df) (distinct_senders df)) == 1.
Proof.
  intros Hdf. unfold share.
  rewrite (Qsum_map_div
             (fun m => Z.of_nat (count_occ string_dec (map member df) m))).
  unfold distinct_senders. rewrite count_total.
  - rewrite length_map.
    assert (H : 0 < inject_Z (Z.of_nat (List.length df))).
    { change 0 with (inject_Z 0). rewrite <- Zlt_Qlt.
      destruct df; [congruence | cbn; lia]. }
    field. lra.
  - apply NoDup_nodup.
  - intros x Hx. now apply nodup_In.
Qed.

Lemma share_range (df : DataFrame) (m : string) :
  df <> [] -> 0 <= share df m <= 1.
Proof.
  intros Hdf. unfold share.
  pose proof (count_occ_bound string_dec m (map member df)) as Hc.
  rewrite length_map in Hc.
  assert (Hn : 0 < inject_Z (Z.of_nat (List.length df))).
  { change 0 with (inject_Z 0). rewrite <- Zlt_Qlt.
    destruct df; [congruence | cbn; lia]. }
  assert (H0 : 0 <= inject_Z (Z.of_nat (count_occ string_dec (map member df) m))).
  { change 0 with (inject_Z 0). rewrite <- Zle_Qle. lia. }
  assert (H1 : inject_Z (Z.of_nat (count_occ string_dec (map member df) m))
               <= inject_Z (Z.of_nat (List.length df))).
  { rewrite <- Zle_Qle. lia. }
  split.
  - apply Qle_shift_div_l; lra.
  - apply Qle_shift_div_r; lra.
Qed.

(** With shares that add up to one, the sample variance is at most [1/n],
    hence at most one half. *)
Lemma sample_variance_le_half (df : DataFrame) :
  (2 <= List.length (distinct_senders df))%nat ->
  sample_variance (share df) (distinct_senders df) <= 1 # 2.
Proof.
  intros Hn.
  assert (Hdf : df <> []).
  { intros ->. cbn in Hn. lia. }
  unfold sample_variance. cbv zeta.
  pose proof (shares_total df Hdf) as Hsum.
  assert (Hsq : Qsum (map (fun m => share df m * share df m) (distinct_senders df))
                <= Qsum (map (share df) (distinct_senders df))).
  { apply Qsum_map_le. intros m _.
    destruct (share_range df m Hdf) as [H0 H1]. nra. }
  rewrite Qsum_sq_dev. unfold Qlen. rewrite Hsum in *.
  assert (Hpos : 2 <= inject_Z (Z.of_nat (List.length (distinct_senders df)))).
  { change 2 with (inject_Z 2). rewrite <- Zle_Qle. lia. }
  revert Hpos Hsq.
  generalize (Qsum (map (fun m => share df m * share df m) (distinct_senders df))).
  generalize (inject_Z (Z.of_nat (List.length (distinct_senders df)))).
  intros n T Hpos Hsq.
  apply Qle_shift_div_r; [lra |].
  assert (Hu : 1 / n * n == 1) by (field; lra).
  assert (Hu0 : 0 < 1 / n) by (apply Qlt_shift_div_l; lra).
  assert (Hu1 : 1 / n <= 1 # 2) by (apply Qle_shift_div_r; lra).
  set (u := 1 / n) in *. nra.
Qed.

Lemma surd_compare_balance (v c : Q) :
  surd_compare 1000 (-1000) v c
  = CompOpp (root_compare (-1000 * -1000 * v) (1000 - c)).
Proof. reflexivity. Qed.

Lemma root_compare_above (w : Q) :
  CompOpp (root_compare w (1000 - (inject_Z 1000 + (1 # 2)))) = Lt.
Proof. reflexivity. Qed.

Lemma root_compare_below (w : Q) :
  w <= 500000 ->
  CompOpp (root_compare w (1000 - (inject_Z 292 + (1 # 2)))) = Gt.
Proof.
  intros Hw. unfold root_compare.
  change (Qle_bool 0 (1000 - (inject_Z 292 + (1 # 2)))) with true. cbv iota.
  change (inject_Z 292) with 292.
  destruct (Qcompare_spec w ((1000 - (292 + (1 # 2))) * (1000 - (292 + (1 # 2)))))
    as [E | E | E]; [exfalso; lra | reflexivity | exfalso; lra].
Qed.

(** The last step of a rounding: whichever way the comparison with the
    half-way point and the parity go, the result is the floor or its
    successor. *)
Ltac split_rounding :=
  match goal with
  | |- context [match ?c with Eq => _ | Lt => _ | Gt => _ end] => destruct c
  end;
  try match goal with
      | |- context [Z.even ?n] => destruct (Z.even n)
      end;
  lia.

(** [(1 - sqrt v) * 1000] rounds into [293 .. 1000] for a variance of at
    most one half. *)
Lemma balance_rint_bounds (v : Q) :
  0 <= v <= 1 # 2 -> (293 <= surd_rint 1000 (-1000) v <= 1000)%Z.
Proof.
  intros [Hv0 Hv1].
  unfold surd_rint, surd_floor. rewrite !surd_compare_balance.
  change (Qfloor 1000) with 1000%Z. change (Qle_bool 0 (-1000)) with false.
  cbv iota zeta.
  set (w := -1000 * -1000 * v).
  assert (Hw0 : 0 <= w) by (unfold w; lra).
  assert (Hw1 : w <= 500000) by (unfold w; lra).
  assert (Hs : (0 <= Z.sqrt (Qfloor w) <= 707)%Z).
  { split; [apply Z.sqrt_nonneg |].
    change 707%Z with (Z.sqrt 500000). apply Z.sqrt_le_mono.
    rewrite <- (Qfloor_Z 500000). apply Qfloor_resp_le.
    change (inject_Z 500000) with 500000. exact Hw1. }
  remember (Z.sqrt (Qfloor w)) as s eqn:Es. clear Es.
  destruct (Z.eq_dec s 0) as [-> | Hs0].
  - change (1000 - 0)%Z with 1000%Z. change (1000 - 0 - 1)%Z with 999%Z.
    destruct (CompOpp (root_compare w (1000 - inject_Z 1000))); cbv iota.
    + rewrite root_compare_above. lia.
    + split_rounding.
    + rewrite root_compare_above. lia.
  - destruct (Z.eq_dec s 707) as [-> | Hs1].
    + change (1000 - 707)%Z with 293%Z. change (1000 - 707 - 1)%Z with 292%Z.
      destruct (CompOpp (root_compare w (1000 - inject_Z 293))); cbv iota.
      * split_rounding.
      * rewrite root_compare_below by exact Hw1. lia.
      * split_rounding.
    + destruct (CompOpp (root_compare w (1000 - inject_Z (1000 - s))));
        cbv iota; split_rounding.
Qed.

Lemma balance_value_rint (v : Q) :
  sround (smul (ssub (Fin 1) (Surd 0 1 v)) (Fin 100)) 1
  = fin (inject_Z (surd_rint 1000 (-1000) v) / 10).
Proof. reflexivity. Qed.

(** X9: with at least two distinct senders the deviation of the shares is
    at most [sqrt (1/2)], so [participation_balance] is a number between
    [29.3] and [100] and the clamp of line 43 never acts: [balance_score]
    is [participation_balance] itself. *)
Theorem balance_range (polarity : string -> result Q) (today : string)
    (df : DataFrame) :
  (2 <= List.length (distinct_senders df))%nat ->
  exists r b,
    analyze_team_communication polarity today df = Ok r
    /\ value (balance (metrics r)) = Fin b
    /\ 293 # 10 <= b <= 100
    /\ score (balance (metrics r)) = Fin b.
Proof.
  intros Hn.
  destruct (participation_std_Surd df Hn) as (v & Ev & Hv & Hv0).
  pose proof (sample_variance_le_half df Hn) as Hhalf. rewrite <- Hv in Hhalf.
  destruct (balance_rint_bounds v (conj Hv0 Hhalf)) as [Hk1 Hk2].
  destruct (analyze_returns polarity today df)
    as (r & Hr & _ & _ & Hvb & _ & _ & Hsb & _).
  rewrite Ev, balance_value_rint in Hvb.
  rewrite Zle_Qle in Hk1, Hk2.
  change (inject_Z 293) with 293 in Hk1. change (inject_Z 1000) with 1000 in Hk2.
  revert Hvb Hk1 Hk2. generalize (inject_Z (surd_rint 1000 (-1000) v)).
  intros k Hvb Hk1 Hk2.
  assert (Ek : k / 10 == k * (1 # 10)) by field.
  exists r, (Qred (k / 10)). split; [exact Hr |]. split; [exact Hvb |].
  split; [rewrite Qred_correct, Ek; lra |].
  rewrite Hsb, Hvb. apply clamp_inactive. rewrite Ek. lra.
Qed.

Lemma balance_range_witness :
  exists r b,
    analyze_team_communication sample_polarity "2024-05-01" gap_week = Ok r
    /\ value (balance (metrics r)) = Fin b
    /\ 293 # 10 <= b <= 100
    /\ score (balance (metrics r)) = Fin b.
Proof.
  apply (balance_range sample_polarity "2024-05-01" gap_week).
  cbn. lia.
Defined.

(** ** The headline colour *)

Lemma round1_range_Z (lo hi : Z) (q : Q) :
  inject_Z lo <= q <= inject_Z hi ->
  exists q', round (Fin q) 1 = Fin q' /\ inject_Z lo <= q' <= inject_Z hi.
Proof.
  intros Hq. eexists. split; [reflexivity |].
  rewrite Qred_correct. change (pow10 1) with 10.
  assert (H : (lo * 10 <= rint (q * 10) <= hi * 10)%Z).
  { apply rint_bounds. rewrite !inject_Z_mult. change (inject_Z 10) with 10.
    lra. }
  destruct H as [H1 H2]. rewrite Zle_Qle, inject_Z_mult in H1, H2.
  change (inject_Z 10) with 10 in H1, H2.
  revert H1 H2 Hq.
  generalize (inject_Z (rint (q * 10))) (inject_Z lo) (inject_Z hi).
  intros k l h H1 H2 _.
  assert (Ek : k / 10 == k * (1 # 10)) by field.
  rewrite Ek. lra.
Qed.

(** X10: when one member sends every message the balance contributes
    nothing, so [total_score] is at most [70] and the report's headline is
    never given the green colour "#2e7d32" of line 98. *)
Theorem single_sender_never_green (polarity : string -> result Q)
    (today : string) (df : DataFrame) (m : string) :
  df <> [] -> (forall r, In r df -> member r = m) ->
  exists r t,
    analyze_team_communication polarity today df = Ok r
    /\ total_score r = Fin t
    /\ 0 <= t <= 70
    /\ score_color (total_score r) <> "#2e7d32".
Proof.
  intros Hdf Hall.
  assert (Hstd : participation_std df = SNaN).
  { apply participation_std_NaN.
    rewrite (single_sender_distinct df m Hdf Hall). cbn. lia. }
  destruct (scores_range polarity today df)
    as (r & c & s & b & Hr & Ec & Rc & Es & Rs & _).
  destruct (analyze_returns polarity today df)
    as (r' & Hr' & _ & _ & Hvb & _ & _ & Hsb & Ht & _).
  assert (r' = r) by congruence. subst r'.
  assert (Eb : score (balance (metrics r)) = Fin 0).
  { rewrite Hsb, Hvb, Hstd. reflexivity. }
  rewrite Ec, Es, Eb in Ht. cbn [fmul fadd fin] in Ht.
  destruct (round1_range_Z 0 70
              (Qred (Qred (Qred (c * 0.4) + Qred (s * 0.3)) + Qred (0 * 0.3))))
    as (t & Et & Rt).
  { rewrite !Qred_correct. change (inject_Z 0) with 0.
    change (inject_Z 70) with 70. lra. }
  change (inject_Z 0) with 0 in Rt. change (inject_Z 70) with 70 in Rt.
  exists r, t. split; [exact Hr |].
  assert (Htot : total_score r = Fin t) by now rewrite Ht.
  split; [exact Htot |]. split; [exact Rt |].
  rewrite Htot. unfold score_color, fgtb.
  assert (E : fltb (Fin 70) (Fin t) = false) by (apply fltb_Fin_false; lra).
  rewrite E. destruct (fltb (Fin 50) (Fin t)); discriminate.
Qed.

Lemma single_sender_never_green_witness :
  exists r t,
    analyze_team_communication sample_polarity "2024-05-01" flood = Ok r
    /\ total_score r = Fin t
    /\ 0 <= t <= 70
    /\ score_color (total_score r) <> "#2e7d32".
Proof.
  apply (single_sender_never_green sample_polarity "2024-05-01" flood "ann").
  - discriminate.
  - intros r Hr. apply repeat_spec in Hr. now subst r.
Defined.

(** ** Loading and cleaning *)

(** X11: a raw row without message has no effect on the outcome, wherever
    it stands and whatever its other fields hold, an unparseable date
    included: it is dropped before the dates are parsed, and the run ends
    in the same report or the same exception as without it. *)
Theorem missing_message_row_is_ignored
    (to_datetime : list (option string) -> result (list (option Z)))
    (polarity : string -> result Q) (today : string)
    (before after : list raw_row) (bad : raw_row) :
  raw_message bad = None ->
  clean_and_analyze to_datetime polarity today (before ++ bad :: after)
  = clean_and_analyze to_datetime polarity today (before ++ after).
Proof.
  intros Hbad. unfold clean_and_analyze, clean, dropna_message.
  rewrite !filter_app. cbn [filter]. rewrite Hbad. reflexivity.
Qed.

Lemma missing_message_row_is_ignored_witness :
  clean_and_analyze sample_to_datetime sample_polarity "2024-05-01" raw_sample
  = clean_and_analyze sample_to_datetime sample_polarity "2024-05-01"
      [ {| raw_date := Some "2024-01-01 09:00"; raw_channel := "general";
           raw_member := "ann"; raw_message := Some "few" |};
        {| raw_date := Some "2024-01-01 10:30"; raw_channel := "general";
           raw_member := "bob"; raw_message := Some "hello" |} ].
Proof.
  apply (missing_message_row_is_ignored sample_to_datetime sample_polarity
           "2024-05-01"
           [ {| raw_date := Some "2024-01-01 09:00"; raw_channel := "general";
                raw_member := "ann"; raw_message := Some "few" |} ]
           [ {| raw_date := Some "2024-01-01 10:30"; raw_channel := "general";
                raw_member := "bob"; raw_message := Some "hello" |} ]
           {| raw_date := Some "n/a"; raw_channel := "general";
              raw_member := "bob"; raw_message := None |}).
  reflexivity.
Defined.

Example cleaning_raw_sample :
  exists r,
    clean_and_analyze sample_to_datetime sample_polarity "2024-05-01" raw_sample
    = Ok r
    /\ value (communication (metrics r)) = Fin 2
    /\ value (sentiment (metrics r)) = Fin (-1 # 10)
    /\ value (balance (metrics r)) = Fin 100.
Proof.
  eexists. split; [vm_compute; reflexivity |]. repeat split.
Qed.

Lemma dated_parsed_of_row (df : DataFrame) :
  dated (map parsed_of_row df) = map date df.
Proof.
  induction df as [| r df IH]; cbn; [reflexivity | now rewrite IH].
Qed.

(** On a frame in which every date was parsed, the analysis of the frame of
    line 19 is [analyze_team_communication]. *)
Lemma analyze_parsed_dated (polarity : string -> result Q) (today : string)
    (df : DataFrame) :
  analyze_parsed polarity today (map parsed_of_row df)
  = analyze_team_communication polarity today df.
Proof.
  unfold analyze_parsed, analyze_team_communication, avg_daily_messages,
    daily_activity, participation_std, participation.
  rewrite dated_parsed_of_row, !map_map. cbn [parsed_of_row parsed_message
    parsed_member]. reflexivity.
Qed.

(** A row with a message and no date: it is in no daily bin, and it counts
    for the sentiment and the participation. *)
Example missing_date_sample :
  exists r,
    clean_and_analyze sample_to_datetime sample_polarity "2024-05-01"
      (raw_sample
       ++ [ {| raw_date := None; raw_channel := "general";
               raw_member := "bob"; raw_message := Some "great" |} ])
    = Ok r
    /\ value (communication (metrics r)) = Fin 2
    /\ value (sentiment (metrics r)) = Fin (1 # 5)
    /\ value (balance (metrics r)) = Fin (382 # 5).
Proof.
  eexists. split; [vm_compute; reflexivity |]. repeat split.
Qed.


(** * The scoring stage in binary64 *)

(** ** Powers of two *)

Lemma pow2_pos (e : Z) : 0 < 2 ^ e.
Proof. apply Qpower_0_lt. reflexivity. Qed.

Lemma pow2_le (a b : Z) : (a <= b)%Z -> 2 ^ a <= 2 ^ b.
Proof. intros H. apply Qpower_le_compat_l; [exact H | discriminate]. Qed.

Lemma pow2_lt (a b : Z) : (a < b)%Z -> 2 ^ a < 2 ^ b.
Proof. intros H. apply Qpower_lt_compat_l; [exact H | reflexivity]. Qed.

Lemma pow2_lt_inv (a b : Z) : 2 ^ a < 2 ^ b -> (a < b)%Z.
Proof. intros H. apply (Qpower_lt_compat_l_inv 2); [exact H | reflexivity]. Qed.

Lemma pow2_div (a b : Z) : 2 ^ a / 2 ^ b == 2 ^ (a - b).
Proof. symmetry. apply Qpower_minus. discriminate. Qed.

Lemma pow2_succ (a : Z) : 2 ^ (a + 1) == 2 * 2 ^ a.
Proof. rewrite Qpower_plus by discriminate. ring. Qed.

Lemma pow2_Z (n : Z) : (0 <= n)%Z -> 2 ^ n == inject_Z (2 ^ n).
Proof. intros H. rewrite Zpower_Qpower by exact H. reflexivity. Qed.

Lemma Qdiv_lt_cross (a b c d : Q) :
  0 < b -> 0 < d -> a * d < c * b -> a / b < c / d.
Proof.
  intros Hb Hd H. apply Qlt_shift_div_r; [exact Hb |].
  assert (E : c / d * b == c * b / d) by (field; lra).
  rewrite E. apply Qlt_shift_div_l; [exact Hd | exact H].
Qed.

Lemma Qdiv_le_cross (a b c d : Q) :
  0 < b -> 0 < d -> a * d <= c * b -> a / b <= c / d.
Proof.
  intros Hb Hd H. apply Qle_shift_div_r; [exact Hb |].
  assert (E : c / d * b == c * b / d) by (field; lra).
  rewrite E. apply Qle_shift_div_l; [exact Hd | exact H].
Qed.

(** ** The binade of a positive rational *)

Lemma log2_bounds_Q (n : Z) :
  (0 < n)%Z ->
  2 ^ Z.log2 n <= inject_Z n /\ inject_Z n < 2 * 2 ^ Z.log2 n.
Proof.
  intros Hn. destruct (Z.log2_spec n Hn) as [H1 H2].
  pose proof (Z.log2_nonneg n) as H0.
  rewrite <- pow2_succ, !pow2_Z by lia.
  split; [rewrite <- Zle_Qle | rewrite <- Zlt_Qlt]; lia.
Qed.

Lemma binade_spec (q : Q) :
  0 < q -> 2 ^ B64.binade q <= q /\ q < 2 ^ (B64.binade q + 1).
Proof.
  intros Hq. unfold B64.binade.
  destruct q as [n d]. cbn [Qnum Qden] in *.
  assert (Hn : (0 < n)%Z).
  { unfold Qlt in Hq. cbn in Hq. lia. }
  destruct (log2_bounds_Q n Hn) as [A1 A2].
  destruct (log2_bounds_Q (Z.pos d) eq_refl) as [B1 B2].
  set (a := Z.log2 n) in *. set (b := Z.log2 (Z.pos d)) in *.
  assert (Eq : n # d == inject_Z n / inject_Z (Z.pos d)) by apply Qmake_Qdiv.
  pose proof (pow2_pos a) as Pa. pose proof (pow2_pos b) as Pb.
  assert (HD : 0 < inject_Z (Z.pos d)).
  { change 0 with (inject_Z 0). rewrite <- Zlt_Qlt. lia. }
  assert (HN : 0 < inject_Z n).
  { change 0 with (inject_Z 0). rewrite <- Zlt_Qlt. lia. }
  assert (Up : n # d < 2 ^ (a - b + 1)).
  { rewrite Eq, pow2_succ, <- pow2_div.
    assert (E : 2 * (2 ^ a / 2 ^ b) == (2 * 2 ^ a) / 2 ^ b) by (field; lra).
    rewrite E. apply Qdiv_lt_cross; [exact HD | exact Pb |].
    revert A2 B1 Pa Pb HD HN.
    generalize (inject_Z n) (inject_Z (Z.pos d)) (2 ^ a) (2 ^ b).
    intros N D A B. intros. nra. }
  assert (Lo : 2 ^ (a - b - 1) <= n # d).
  { assert (E1 : 2 ^ (a - b - 1) == 2 ^ a / (2 * 2 ^ b)).
    { rewrite <- pow2_succ, pow2_div. apply Qpower_comp; [reflexivity | lia]. }
    rewrite Eq, E1. apply Qdiv_le_cross; [lra | exact HD |].
    revert A1 B2 Pa Pb HD HN.
    generalize (inject_Z n) (inject_Z (Z.pos d)) (2 ^ a) (2 ^ b).
    intros N D A B. intros. nra. }
  destruct (Qle_bool (2 ^ (a - b)) (n # d)) eqn:E.
  - apply Qle_bool_iff in E. split; [exact E | exact Up].
  - assert (H : n # d < 2 ^ (a - b)).
    { apply Qnot_le_lt. intros C. apply Qle_bool_iff in C. congruence. }
    split; [exact Lo |].
    replace (a - b - 1 + 1)%Z with (a - b)%Z by lia. exact H.
Qed.

Lemma binade_ge (q : Q) (k : Z) : 0 < q -> 2 ^ k <= q -> (k <= B64.binade q)%Z.
Proof.
  intros Hq H. destruct (binade_spec q Hq) as [_ H2].
  assert (2 ^ k < 2 ^ (B64.binade q + 1)) by lra.
  apply pow2_lt_inv in H0. lia.
Qed.

Lemma binade_lt (q : Q) (k : Z) : 0 < q -> q < 2 ^ k -> (B64.binade q < k)%Z.
Proof.
  intros Hq H. destruct (binade_spec q Hq) as [H1 _].
  apply pow2_lt_inv. lra.
Qed.

Lemma binade_mono (p q : Q) :
  0 < p -> p <= q -> (B64.binade p <= B64.binade q)%Z.
Proof.
  intros Hp H. apply binade_ge; [lra |].
  destruct (binade_spec p Hp) as [H1 _]. lra.
Qed.

(** ** Rounding to the nearest binary64 value *)

Lemma rint_upper (hi : Z) (q : Q) : q <= inject_Z hi -> (rint q <= hi)%Z.
Proof.
  intros H. apply (rint_bounds (Qfloor q) hi q). split; [apply Qfloor_le | exact H].
Qed.

Lemma rint_floor (q : Q) : (Qfloor q <= rint q <= Qfloor q + 1)%Z.
Proof.
  unfold rint.
  destruct (Qcompare (q - inject_Z (Qfloor q)) (1 # 2));
    try destruct (Z.even (Qfloor q)); lia.
Qed.

Lemma rint_mono (x y : Q) : x <= y -> (rint x <= rint y)%Z.
Proof.
  intros H. pose proof (Qfloor_resp_le x y H) as Hf.
  destruct (Z.eq_dec (Qfloor x) (Qfloor y)) as [E | E].
  - unfold rint. rewrite E.
    remember (inject_Z (Qfloor y)) as f eqn:Ef. clear Ef.
    destruct (Qcompare_spec (x - f) (1 # 2)) as [Hx | Hx | Hx];
      destruct (Qcompare_spec (y - f) (1 # 2)) as [Hy | Hy | Hy];
      try destruct (Z.even (Qfloor y)); try lia; exfalso; lra.
  - pose proof (rint_floor x). pose proof (rint_floor y). lia.
Qed.

Lemma grid_shift (q : Q) (k : Z) :
  2 ^ (Z.max (B64.binade q) (-1022) + k) / 2 ^ B64.grid q == 2 ^ (52 + k).
Proof.
  rewrite pow2_div. apply Qpower_comp; [reflexivity |]. unfold B64.grid. lia.
Qed.

Lemma round_pos_eq (q : Q) :
  B64.round_pos q == inject_Z (rint (q / 2 ^ B64.grid q)) * 2 ^ B64.grid q.
Proof. unfold B64.round_pos. cbv zeta. apply Qred_correct. Qed.

Lemma Qdiv_le_compat (a b c : Q) : 0 < c -> a <= b -> a / c <= b / c.
Proof.
  intros Hc H. unfold Qdiv. apply Qmult_le_compat_r; [exact H |].
  apply Qlt_le_weak, Qinv_lt_0_compat, Hc.
Qed.

Lemma Qle_div_mult (a b c : Q) : 0 < b -> a <= c / b -> a * b <= c.
Proof.
  intros Hb H.
  assert (H' : a * b <= c / b * b) by (apply Qmult_le_compat_r; lra).
  assert (E : c / b * b == c) by (field; lra).
  now rewrite E in H'.
Qed.

Lemma Qle_mult_div (a b c : Q) : 0 < b -> c / b <= a -> c <= a * b.
Proof.
  intros Hb H.
  assert (H' : c / b * b <= a * b) by (apply Qmult_le_compat_r; lra).
  assert (E : c / b * b == c) by (field; lra).
  now rewrite E in H'.
Qed.

Lemma round_pos_upper (q : Q) :
  0 < q -> B64.round_pos q <= 2 ^ (Z.max (B64.binade q) (-1022) + 1).
Proof.
  intros Hq. destruct (binade_spec q Hq) as [_ H2].
  pose proof (pow2_pos (B64.grid q)) as Pg.
  assert (Hq2 : q <= 2 ^ (Z.max (B64.binade q) (-1022) + 1)).
  { apply Qlt_le_weak. eapply Qlt_le_trans; [exact H2 |].
    apply pow2_le. lia. }
  apply (Qdiv_le_compat _ _ _ Pg) in Hq2.
  rewrite round_pos_eq. apply Qle_div_mult; [exact Pg |].
  rewrite grid_shift in Hq2. rewrite grid_shift.
  rewrite (pow2_Z (52 + 1)) in Hq2 by lia. rewrite (pow2_Z (52 + 1)) by lia.
  rewrite <- Zle_Qle. apply rint_upper. exact Hq2.
Qed.

Lemma round_pos_lower (q : Q) :
  0 < q -> (-1022 <= B64.binade q)%Z -> 2 ^ B64.binade q <= B64.round_pos q.
Proof.
  intros Hq He. destruct (binade_spec q Hq) as [H1 _].
  pose proof (pow2_pos (B64.grid q)) as Pg.
  apply (Qdiv_le_compat _ _ _ Pg) in H1.
  rewrite round_pos_eq. apply Qle_mult_div; [exact Pg |].
  assert (E : 2 ^ B64.binade q / 2 ^ B64.grid q == inject_Z (2 ^ 52)).
  { rewrite <- (pow2_Z 52) by lia. rewrite pow2_div.
    apply Qpower_comp; [reflexivity |]. unfold B64.grid. lia. }
  rewrite E in H1. rewrite E.
  rewrite <- Zle_Qle. apply rint_lower. exact H1.
Qed.

Lemma round_pos_nonneg (q : Q) : 0 < q -> 0 <= B64.round_pos q.
Proof.
  intros Hq. rewrite round_pos_eq.
  pose proof (pow2_pos (B64.grid q)) as Pg.
  assert (H : (0 <= rint (q / 2 ^ B64.grid q))%Z).
  { apply rint_lower. change (inject_Z 0) with 0.
    apply Qle_shift_div_l; [exact Pg | lra]. }
  rewrite Zle_Qle in H. change (inject_Z 0) with 0 in H.
  revert H Pg. generalize (inject_Z (rint (q / 2 ^ B64.grid q))) (2 ^ B64.grid q).
  intros m G H Pg. nra.
Qed.

Lemma round_pos_mono (p q : Q) :
  0 < p -> p <= q -> B64.round_pos p <= B64.round_pos q.
Proof.
  intros Hp H. assert (Hq : 0 < q) by lra.
  pose proof (binade_mono p q Hp H) as He.
  destruct (Z.eq_dec (Z.max (B64.binade p) (-1022)) (Z.max (B64.binade q) (-1022)))
    as [E | E].
  - assert (Eg : B64.grid p = B64.grid q) by (unfold B64.grid; now rewrite E).
    rewrite !round_pos_eq, Eg.
    pose proof (pow2_pos (B64.grid q)) as Pg.
    apply Qmult_le_compat_r; [| lra].
    rewrite <- Zle_Qle. apply rint_mono. now apply Qdiv_le_compat.
  - eapply Qle_trans; [apply (round_pos_upper p Hp) |].
    eapply Qle_trans; [| apply (round_pos_lower q Hq); lia].
    apply pow2_le. lia.
Qed.

Lemma round_nearest_mono (p q : Q) :
  p <= q -> B64.round_nearest p <= B64.round_nearest q.
Proof.
  intros H. unfold B64.round_nearest.
  destruct (Qcompare_spec p 0) as [Hp | Hp | Hp];
    destruct (Qcompare_spec q 0) as [Hq | Hq | Hq]; try (exfalso; lra).
  - lra.
  - apply round_pos_nonneg. exact Hq.
  - pose proof (round_pos_nonneg (- p)). lra.
  - assert (Hn : B64.round_pos (- q) <= B64.round_pos (- p))
      by (apply round_pos_mono; lra).
    lra.
  - pose proof (round_pos_nonneg (- p)). pose proof (round_pos_nonneg q). lra.
  - now apply round_pos_mono.
Qed.

Lemma round_nearest_canonical (q : Q) :
  Qred (B64.round_nearest q) = B64.round_nearest q.
Proof.
  unfold B64.round_nearest, B64.round_pos.
  destruct (Qcompare q 0); cbv zeta.
  - reflexivity.
  - rewrite Qred_opp. f_equal. apply Qcanon.Qred_involutive.
  - apply Qcanon.Qred_involutive.
Qed.

(** The result of an operation whose exact value lies between two numbers
    lies between their roundings, and is finite when these are. *)
Lemma RN_range (lo hi q L H : Q) :
  lo <= q <= hi ->
  B64.round_nearest lo = L -> B64.round_nearest hi = H ->
  - 2 ^ 1024 < L -> H < 2 ^ 1024 ->
  exists r, B64.RN q = B64.Fin r /\ L <= r <= H /\ Qred r = r.
Proof.
  intros [H1 H2] EL EH HL HH.
  pose proof (round_nearest_mono lo q H1) as M1.
  pose proof (round_nearest_mono q hi H2) as M2.
  rewrite EL in M1. rewrite EH in M2.
  exists (B64.round_nearest q). split; [| split; [split; assumption |]].
  - unfold B64.RN. cbv zeta.
    destruct (Qle_bool (2 ^ 1024) (Qabs (B64.round_nearest q))) eqn:E;
      [| reflexivity].
    exfalso. apply Qle_bool_iff in E.
    revert E. apply Qlt_not_le. apply Qabs_Qlt_condition. lra.
  - apply round_nearest_canonical.
Qed.

Lemma lit_0 : B64.lit 0 = B64.Fin 0.
Proof. vm_compute. reflexivity. Qed.

Lemma lit_100 : B64.lit 100 = B64.Fin 100.
Proof. vm_compute. reflexivity. Qed.

(** [min(100, max(0, x))] on binary64 values: a number of [0, 100] whatever
    [x] is, NaN and the infinities included. *)
Lemma clamp64_range (x : B64.double) :
  exists q,
    B64.py_min (B64.lit 100) (B64.py_max (B64.lit 0) x) = B64.Fin q
    /\ 0 <= q <= 100.
Proof.
  rewrite lit_0, lit_100. unfold B64.py_max, B64.py_min.
  destruct x as [| [|] | q]; cbn [B64.ltb negb].
  - exists 0. split; [reflexivity | lra].
  - exists 0. split; [reflexivity | lra].
  - exists 100. split; [reflexivity | lra].
  - destruct (Qle_bool q 0) eqn:E0; cbn [negb B64.ltb].
    + exists 0. split; [reflexivity | lra].
    + assert (H0 : 0 < q).
      { apply Qnot_le_lt. intros C. apply Qle_bool_iff in C. congruence. }
      destruct (Qle_bool 100 q) eqn:E1; cbn [negb].
      * exists 100. split; [reflexivity | lra].
      * assert (H1 : q < 100).
        { apply Qnot_le_lt. intros C. apply Qle_bool_iff in C. congruence. }
        exists q. split; [reflexivity | lra].
Qed.

(** ** Lines 45-47 *)

(** The products and sums of line 45-47 stay within their exact bounds:
    [100 * 0.4] is [40.0] and [100 * 0.3] is [30.0] in binary64. *)
Lemma weighted_sum64_range (c s b : Q) :
  0 <= c <= 100 -> 0 <= s <= 100 -> 0 <= b <= 100 ->
  exists w,
    B64.add (B64.add (B64.mul (B64.Fin c) (B64.lit 0.4))
                     (B64.mul (B64.Fin s) (B64.lit 0.3)))
            (B64.mul (B64.Fin b) (B64.lit 0.3)) = B64.Fin w
    /\ 0 <= w <= 100.
Proof.
  intros Hc Hs Hb.
  assert (E4 : B64.lit 0.4 = B64.Fin (B64.round_nearest 0.4))
    by (vm_compute; reflexivity).
  assert (E3 : B64.lit 0.3 = B64.Fin (B64.round_nearest 0.3))
    by (vm_compute; reflexivity).
  assert (P4 : 0 <= B64.round_nearest 0.4) by (vm_compute; discriminate).
  assert (P3 : 0 <= B64.round_nearest 0.3) by (vm_compute; discriminate).
  rewrite E4, E3. cbn [B64.mul].
  destruct (RN_range (0 * B64.round_nearest 0.4) (100 * B64.round_nearest 0.4)
              (c * B64.round_nearest 0.4) 0 40)
    as (x1 & E1 & R1 & _);
    [ revert P4; generalize (B64.round_nearest 0.4); intros k P4; split; nra
    | vm_compute; reflexivity | vm_compute; reflexivity
    | vm_compute; reflexivity | vm_compute; reflexivity | ].
  destruct (RN_range (0 * B64.round_nearest 0.3) (100 * B64.round_nearest 0.3)
              (s * B64.round_nearest 0.3) 0 30)
    as (x2 & E2 & R2 & _);
    [ revert P3; generalize (B64.round_nearest 0.3); intros k P3; split; nra
    | vm_compute; reflexivity | vm_compute; reflexivity
    | vm_compute; reflexivity | vm_compute; reflexivity | ].
  destruct (RN_range (0 * B64.round_nearest 0.3) (100 * B64.round_nearest 0.3)
              (b * B64.round_nearest 0.3) 0 30)
    as (x3 & E3' & R3 & _);
    [ revert P3; generalize (B64.round_nearest 0.3); intros k P3; split; nra
    | vm_compute; reflexivity | vm_compute; reflexivity
    | vm_compute; reflexivity | vm_compute; reflexivity | ].
  rewrite E1, E2, E3'. cbn [B64.add].
  destruct (RN_range 0 70 (x1 + x2) 0 70) as (y & Ey & Ry & _);
    [ split; lra
    | vm_compute; reflexivity | vm_compute; reflexivity
    | vm_compute; reflexivity | vm_compute; reflexivity | ].
  rewrite Ey. cbn [B64.add].
  destruct (RN_range 0 100 (y + x3) 0 100) as (w & Ew & Rw & _);
    [ split; lra
    | vm_compute; reflexivity | vm_compute; reflexivity
    | vm_compute; reflexivity | vm_compute; reflexivity | ].
  exists w. split; [exact Ew | exact Rw].
Qed.

(** Rounding to one decimal keeps a number of [0, 100] in [0, 100]. *)
Lemma round64_range (w : Q) :
  0 <= w <= 100 ->
  exists t, B64.round (B64.Fin w) 1 = B64.Fin t /\ 0 <= t <= 100.
Proof.
  intros Hw. unfold B64.round. cbv zeta. change (pow10 1) with 10.
  cbn [B64.mul].
  destruct (RN_range 0 1000 (w * 10) 0 1000) as (x & Ex & Rx & _);
    [ split; lra
    | vm_compute; reflexivity | vm_compute; reflexivity
    | vm_compute; reflexivity | vm_compute; reflexivity | ].
  rewrite Ex. cbn [B64.rint_d B64.div].
  change (Qeq_bool 10 0) with false. cbv iota.
  assert (Hk : (0 <= rint x <= 1000)%Z).
  { apply rint_bounds. change (inject_Z 0) with 0.
    change (inject_Z 1000) with 1000. exact Rx. }
  destruct Hk as [K1 K2]. rewrite Zle_Qle in K1, K2.
  change (inject_Z 0) with 0 in K1. change (inject_Z 1000) with 1000 in K2.
  revert K1 K2. generalize (inject_Z (rint x)). intros k K1 K2.
  assert (Ek : k / 10 == k * (1 # 10)) by field.
  destruct (RN_range 0 100 (k / 10) 0 100) as (t & Et & Rt & _);
    [ rewrite Ek; split; lra
    | vm_compute; reflexivity | vm_compute; reflexivity
    | vm_compute; reflexivity | vm_compute; reflexivity | ].
  exists t. split; [exact Et | exact Rt].
Qed.

(** C5: whatever the three statistics of the dataset are (NaN and the
    infinities included), in the binary64 arithmetic of the program
    [total_score] is
    [round(communication_score*0.4 + sentiment_score*0.3 + balance_score*0.3, 1)]
    over the three clamped sub-scores, with the fixed weights, and it is a
    number of [0, 100]. *)
Theorem total_score_weighted_sum
    (avg_daily_messages avg_sentiment participation_balance : B64.double) :
  let r := B64.scoring avg_daily_messages avg_sentiment participation_balance in
  B64.total_score r
  = B64.round
      (B64.add (B64.add (B64.mul (B64.communication_score r) (B64.lit 0.4))
                        (B64.mul (B64.sentiment_score r) (B64.lit 0.3)))
               (B64.mul (B64.balance_score r) (B64.lit 0.3))) 1
  /\ (exists c s b,
        B64.communication_score r = B64.Fin c /\ 0 <= c <= 100
        /\ B64.sentiment_score r = B64.Fin s /\ 0 <= s <= 100
        /\ B64.balance_score r = B64.Fin b /\ 0 <= b <= 100)
  /\ exists t, B64.total_score r = B64.Fin t /\ 0 <= t <= 100.
Proof.
  cbv zeta. unfold B64.scoring. cbv zeta.
  cbn [B64.total_score B64.communication_score B64.sentiment_score
       B64.balance_score].
  destruct (clamp64_range (B64.mul avg_daily_messages (B64.lit 2)))
    as (c & Ec & Rc).
  destruct (clamp64_range
              (B64.mul (B64.add avg_sentiment (B64.lit 1)) (B64.lit 50)))
    as (s & Es & Rs).
  destruct (clamp64_range participation_balance) as (b & Eb & Rb).
  split; [reflexivity |].
  split; [exists c, s, b; tauto |].
  rewrite Ec, Es, Eb.
  destruct (weighted_sum64_range c s b Rc Rs Rb) as (w & Ew & Rw).
  rewrite Ew. apply round64_range. exact Rw.
Qed.

(** One sender, three messages of polarity 0.8, 0 and 0 on one day: the
    statistics are 3.0, 0.27 and NaN, the weighted sum is slightly above
    21.45 and the total is 21.5. *)
Example total_score_of_one_sender :
  let r := B64.scoring (B64.lit 3) (B64.lit 0.27) B64.NaN in
  B64.communication_score r = B64.Fin 6
  /\ B64.sentiment_score r = B64.Fin (127 # 2)
  /\ B64.balance_score r = B64.Fin 0
  /\ B64.total_score r = B64.Fin (43 # 2).
Proof. vm_compute. repeat split. Qed.

(** ** Line 42 *)

Lemma canonical_eq (r c : Q) : Qred r = r -> Qred c = c -> r == c -> r = c.
Proof.
  intros Hr Hc E. rewrite <- Hr, <- Hc. now apply Qred_complete.
Qed.

(** X1: for every [avg_sentiment] of [-1, 1], the interval the capability's
    contract leaves it in, the clamp of line 42 never acts: in binary64
    [sentiment_score] is the value of [(avg_sentiment + 1) * 50] itself, a
    number of [0, 100]. *)
Theorem sentiment_score_unclamped
    (avg_daily_messages participation_balance : B64.double) (a : Q) :
  -1 <= a <= 1 ->
  let r := B64.scoring avg_daily_messages (B64.Fin a) participation_balance in
  B64.sentiment_score r
  = B64.mul (B64.add (B64.Fin a) (B64.lit 1)) (B64.lit 50)
  /\ exists s, B64.sentiment_score r = B64.Fin s /\ 0 <= s <= 100.
Proof.
  intros Ha. cbv zeta. unfold B64.scoring. cbv zeta.
  cbn [B64.sentiment_score].
  assert (E1 : B64.lit 1 = B64.Fin 1) by (vm_compute; reflexivity).
  assert (E50 : B64.lit 50 = B64.Fin 50) by (vm_compute; reflexivity).
  rewrite E1, E50, lit_0, lit_100. cbn [B64.add].
  destruct (RN_range 0 2 (a + 1) 0 2) as (x & Ex & Rx & _);
    [ split; lra
    | vm_compute; reflexivity | vm_compute; reflexivity
    | vm_compute; reflexivity | vm_compute; reflexivity | ].
  rewrite Ex. cbn [B64.mul].
  destruct (RN_range 0 100 (x * 50) 0 100) as (s & Es & Rs & Cs);
    [ split; lra
    | vm_compute; reflexivity | vm_compute; reflexivity
    | vm_compute; reflexivity | vm_compute; reflexivity | ].
  rewrite Es.
  assert (Hclamp : B64.py_min (B64.Fin 100) (B64.py_max (B64.Fin 0) (B64.Fin s))
                   = B64.Fin s).
  { unfold B64.py_max, B64.py_min. cbn [B64.ltb].
    destruct (Qle_bool s 0) eqn:E0; cbn [negb B64.ltb].
    - apply Qle_bool_iff in E0.
      assert (s = 0) by (apply canonical_eq; [exact Cs | reflexivity | lra]).
      subst s. reflexivity.
    - destruct (Qle_bool 100 s) eqn:E2; cbn [negb]; [| reflexivity].
      apply Qle_bool_iff in E2.
      assert (s = 100) by (apply canonical_eq; [exact Cs | reflexivity | lra]).
      subst s. reflexivity. }
  rewrite Hclamp. split; [reflexivity |]. exists s. split; [reflexivity | exact Rs].
Qed.

Lemma sentiment_score_unclamped_witness :
  let r := B64.scoring (B64.lit 3) (B64.Fin (B64.round_nearest 0.15)) B64.NaN in
  B64.sentiment_score r
  = B64.mul (B64.add (B64.Fin (B64.round_nearest 0.15)) (B64.lit 1)) (B64.lit 50)
  /\ exists s, B64.sentiment_score r = B64.Fin s /\ 0 <= s <= 100.
Proof.
  apply (sentiment_score_unclamped (B64.lit 3) B64.NaN (B64.round_nearest 0.15)).
  vm_compute. split; discriminate.
Defined.

(** At [avg_sentiment = 0.15] the score is the binary64 value just below
    [57.5], printed 57.49999999999999. *)
Example sentiment_score_at_0_15 :
  let r := B64.scoring (B64.lit 3) (B64.lit 0.15) B64.NaN in
  B64.sentiment_score r = B64.Fin (8092405580431359 # 140737488355328)
  /\ B64.ltb (B64.sentiment_score r) (B64.lit 57.5) = true.
Proof. vm_compute. split; reflexivity. Qed.
